(** * Verba AI meeting bot: the session orchestrator of
      [audio-service/src/server.js] (class [MeetingBot] and its HTTP
      handlers), embedded as state-passing functions.

    Conventions of the embedding.
    - JavaScript strings are [string]s.  Every character test the source
      performs is a test against ASCII characters, so a non-ASCII character
      behaves like any other character outside the tested sets.
    - A promise that rejects (an [await] that throws) is an outcome
      [Throw msg]; which driver step rejects, and with which message, is given
      by the environment of the call, as is the clock, which does not advance
      while one request is served.
    - Each request is served to its end before the next one starts, except
      where a method is given in steps ([leave_start], [leave_finish]).
    - [Map] is [gmap]; the enumeration order of the [Map] is not modelled. *)

From Stdlib Require Import Ascii String ZArith List Lia.
From stdpp Require Import base option list strings gmap fin_maps.

Open Scope string_scope.

(** ** Strings: the fragment of [String.prototype] and [RegExp] the bot uses *)

Module Str.

Definition is_digit (c : ascii) : bool :=
  (("0" <=? c) && (c <=? "9"))%char.

Definition is_lower (c : ascii) : bool :=
  (("a" <=? c) && (c <=? "z"))%char.

Definition is_upper (c : ascii) : bool :=
  (("A" <=? c) && (c <=? "Z"))%char.

(** the class [[a-zA-Z0-9]] *)
Definition is_alnum (c : ascii) : bool :=
  is_lower c || is_upper c || is_digit c.

(** the class [[a-z\-]] *)
Definition is_lower_or_dash (c : ascii) : bool :=
  is_lower c || Ascii.eqb c "-".

(** the class [[^\/]] *)
Definition not_slash (c : ascii) : bool :=
  negb (Ascii.eqb c "/").

Definition lower_char (c : ascii) : ascii :=
  if is_upper c then ascii_of_nat (nat_of_ascii c + 32) else c.

(** [s.toLowerCase()].  Only ASCII letters are mapped; the handlers compare
    the result with zoom, meet, google, teams and microsoft, and no character
    outside ASCII has a lower case that is a letter of these names. *)
Fixpoint toLowerCase (s : string) : string :=
  match s with
  | EmptyString => EmptyString
  | String c s' => String (lower_char c) (toLowerCase s')
  end.

(** [strip_prefix p s] is the rest of [s] after [p] when [s] starts with [p]. *)
Fixpoint strip_prefix (p s : string) : option string :=
  match p, s with
  | EmptyString, _ => Some s
  | String a p', String b s' =>
      if Ascii.eqb a b then strip_prefix p' s' else None
  | String _ _, EmptyString => None
  end.

Fixpoint take_while (f : ascii -> bool) (s : string) : string :=
  match s with
  | EmptyString => EmptyString
  | String c s' => if f c then String c (take_while f s') else EmptyString
  end.

Fixpoint filter (f : ascii -> bool) (s : string) : string :=
  match s with
  | EmptyString => EmptyString
  | String c s' => if f c then String c (filter f s') else filter f s'
  end.

(** [s.substring(0, n)] *)
Fixpoint take (n : nat) (s : string) : string :=
  match n, s with
  | O, _ => EmptyString
  | S _, EmptyString => EmptyString
  | S n', String c s' => String c (take n' s')
  end.

Fixpoint Forall_chars (f : ascii -> bool) (s : string) : bool :=
  match s with
  | EmptyString => true
  | String c s' => f c && Forall_chars f s'
  end.

(** [s.includes(p)] *)
Fixpoint includes (p s : string) : bool :=
  match strip_prefix p s with
  | Some _ => true
  | None =>
      match s with
      | EmptyString => false
      | String _ s' => includes p s'
      end
  end.

(** [s.replace(p, r)] with a string pattern: the first occurrence only. *)
Fixpoint replace (p r s : string) : string :=
  match strip_prefix p s with
  | Some rest => r ++ rest
  | None =>
      match s with
      | EmptyString => EmptyString
      | String c s' => String c (replace p r s')
      end
  end.

(** The three regular expressions of [extractMeetingId] all have the shape
    [/literal(class+)/]: a literal text followed by one capture group that is
    a greedy, non-empty run of one character class. *)
Record regex := Regex { literal : string; class : ascii -> bool }.

(** A match attempt anchored at the start of [s]; the result is group 1.
    The run is greedy and nothing follows the group, so the group is the
    longest run; the attempt fails when the run is empty. *)
Definition match_here (r : regex) (s : string) : option string :=
  match strip_prefix (literal r) s with
  | Some rest =>
      match take_while (class r) rest with
      | EmptyString => None
      | String c g => Some (String c g)
      end
  | None => None
  end.

(** [s.match(r)] without the [g] flag: the leftmost position at which the
    expression matches; [match_group] is [match[1]], [None] is [null]. *)
Fixpoint match_group (r : regex) (s : string) : option string :=
  match match_here r s with
  | Some g => Some g
  | None =>
      match s with
      | EmptyString => None
      | String _ s' => match_group r s'
      end
  end.

End Str.

(** ** [MeetingBot.extractMeetingId] *)

(** [/\/j\/(\d+)/] *)
Definition zoom_pattern : Str.regex := Str.Regex "/j/" Str.is_digit.
(** [/meet\.google\.com\/([a-z\-]+)/] *)
Definition meet_pattern : Str.regex :=
  Str.Regex "meet.google.com/" Str.is_lower_or_dash.
(** [/meetup-join\/([^\/]+)/] *)
Definition teams_pattern : Str.regex := Str.Regex "meetup-join/" Str.not_slash.

(** [Object.entries(patterns)], in insertion order. *)
Definition patterns : list (string * Str.regex) :=
  [("zoom", zoom_pattern); ("meet", meet_pattern); ("teams", teams_pattern)].

(** the [for ... of] loop: the group of the first pattern that matches *)
Fixpoint first_match (ps : list (string * Str.regex)) (url : string)
  : option string :=
  match ps with
  | [] => None
  | (_, pattern) :: ps' =>
      match Str.match_group pattern url with
      | Some g => Some g
      | None => first_match ps' url
      end
  end.

(** [url.replace(/[^a-zA-Z0-9]/g, '').substring(0, 20)] *)
Definition slug (url : string) : string :=
  Str.take 20 (Str.filter Str.is_alnum url).

Definition extractMeetingId (url : string) : string :=
  match first_match patterns url with
  | Some g => g
  | None => slug url
  end.

(** ** The bot's state and its environment *)

(** The value stored in [activeMeetings].  [browser] and [page] are handles:
    the page of a browser is identified with the browser's number. *)
Record meeting := Meeting {
  browser : nat;
  page : nat;
  platform : string;
  startTime : Z;
  status : string
}.

(** A call on a browser or on its page. *)
Inductive step :=
  | NewPage
  | NewContext
  | OverridePermissions (origin : string)
  | Goto (url : string)
  | WaitForSelector (selector : string)
  | TypeText (selector text : string)
  | Fill (selector text : string)
  | Click (selector : string)
  | EvaluateOnNewDocument
  | Close.

(** The body of the request to the transcription service. *)
Record payload := Payload {
  p_meetingId : string;
  p_audioData : string;
  p_timestamp : Z
}.

(** Everything the bot asks of the outside world. *)
Inductive event :=
  | Launch (engine : string)
  | Call (handle : nat) (s : step)
  | Post (p : payload).

Inductive log_entry :=
  | Info (message : string)
  | Error (message : string) (error : string).

(** Local time as [Date] reports it: [getMonth] counts from 0. *)
Record datetime := DateTime {
  getFullYear : Z;
  getMonth : Z;
  getDate : Z;
  getHours : Z;
  getMinutes : Z
}.

(** The pattern [`${minutes} ${hours} ${date} ${month + 1} *`]. *)
Record cron_pattern := CronPattern {
  cron_minute : Z;
  cron_hour : Z;
  cron_day : Z;
  cron_month : Z
}.

(** A task registered with [cron.schedule]: its pattern and the variables its
    callback closes over. *)
Record cron_task := CronTask {
  task_pattern : cron_pattern;
  task_scheduledTime : string;
  task_platform : string;
  task_meetingUrl : string;
  task_password : option string
}.

Record bot := Bot {
  activeMeetings : gmap string meeting;
  launched : nat;                   (* browsers launched so far *)
  open_browsers : gset nat;         (* launched and not closed *)
  calls : list event;               (* calls made, newest first *)
  listeners : list (nat * string);  (* [page.on('console', ...)]: page, meetingId *)
  log : list log_entry;             (* newest first *)
  tasks : list cron_task            (* oldest first *)
}.

Definition new_bot : bot := Bot ∅ 0 ∅ [] [] [] [].

(** What the outside world answers during one request: which calls reject,
    with which message, and the clock. *)
Record env := Env {
  rejects : event -> option string;
  now : Z
}.

Definition all_succeed (t : Z) : env := Env (fun _ => None) t.

(** ** A state monad with exceptions *)

Inductive outcome (A : Type) :=
  | Ok (a : A)
  | Throw (message : string).
Arguments Ok {A} a.
Arguments Throw {A} message.

Definition M (A : Type) : Type := env -> bot -> outcome A * bot.

#[global] Instance M_ret : MRet M := fun A a _ b => (Ok a, b).

#[global] Instance M_bind : MBind M := fun A B f m e b =>
  match m e b with
  | (Ok a, b') => f a e b'
  | (Throw msg, b') => (Throw msg, b')
  end.

(** [try { m } catch (error) { handler(error.message) }] *)
Definition try_catch {A} (m : M A) (handler : string -> M A) : M A :=
  fun e b =>
    match m e b with
    | (Ok a, b') => (Ok a, b')
    | (Throw msg, b') => handler msg e b'
    end.

Definition modify (f : bot -> bot) : M unit := fun _ b => (Ok tt, f b).

Definition record_call (ev : event) (b : bot) : bot :=
  Bot (activeMeetings b) (launched b) (open_browsers b) (ev :: calls b)
      (listeners b) (log b) (tasks b).

Definition record_log (l : log_entry) (b : bot) : bot :=
  Bot (activeMeetings b) (launched b) (open_browsers b) (calls b)
      (listeners b) (l :: log b) (tasks b).

Definition with_meetings (f : gmap string meeting -> gmap string meeting) (b : bot) : bot :=
  Bot (f (activeMeetings b)) (launched b) (open_browsers b) (calls b)
      (listeners b) (log b) (tasks b).

Definition add_browser (b : bot) : bot :=
  Bot (activeMeetings b) (S (launched b)) ({[launched b]} ∪ open_browsers b)
      (calls b) (listeners b) (log b) (tasks b).

Definition drop_browser (h : nat) (b : bot) : bot :=
  Bot (activeMeetings b) (launched b) (open_browsers b ∖ {[h]}) (calls b)
      (listeners b) (log b) (tasks b).

Definition add_listener (pg : nat) (meetingId : string) (b : bot) : bot :=
  Bot (activeMeetings b) (launched b) (open_browsers b) (calls b)
      ((pg, meetingId) :: listeners b) (log b) (tasks b).

Definition add_task (t : cron_task) (b : bot) : bot :=
  Bot (activeMeetings b) (launched b) (open_browsers b) (calls b)
      (listeners b) (log b) (tasks b ++ [t]).

(** An awaited call to the outside: it is made, then resolves or rejects. *)
Definition await (ev : event) : M unit := fun e b =>
  match rejects e ev with
  | Some msg => (Throw msg, record_call ev b)
  | None => (Ok tt, record_call ev b)
  end.

(** [puppeteer.launch(...)] / [chromium.launch(...)]: a fresh browser. *)
Definition launch (engine : string) : M nat := fun e b =>
  match await (Launch engine) e b with
  | (Ok _, b') => (Ok (launched b'), add_browser b')
  | (Throw msg, b') => (Throw msg, b')
  end.

Definition call (h : nat) (s : step) : M unit := await (Call h s).

(** [browser.close()] *)
Definition close (h : nat) : M unit :=
  call h Close ;; modify (drop_browser h).

Definition logger_info (message : string) : M unit :=
  modify (record_log (Info message)).

Definition logger_error (message error : string) : M unit :=
  modify (record_log (Error message error)).

(** [new Date()] / [Date.now()] *)
Definition clock : M Z := fun e b => (Ok (now e), b).

(** [this.activeMeetings.get / set / delete] *)
Definition meetings_get (meetingId : string) : M (option meeting) :=
  fun _ b => (Ok (activeMeetings b !! meetingId), b).

Definition meetings_set (meetingId : string) (m : meeting) : M unit :=
  modify (with_meetings (insert meetingId m)).

Definition meetings_delete (meetingId : string) : M unit :=
  modify (with_meetings (delete meetingId)).

(** ** The methods of [MeetingBot] *)

(** The objects the methods return: [{ success, meetingId?, error? }]. *)
Record result := Result {
  success : bool;
  meetingId : option string;
  error : option string
}.

Definition joined (id : string) : result := Result true (Some id) None.
Definition left_ok : result := Result true None None.
Definition failed (msg : string) : result := Result false None (Some msg).

(** The double quote that occurs inside the selectors. *)
Definition dq : string := String "034"%char EmptyString.

Definition sel_text : string := "input[type=" ++ dq ++ "text" ++ dq ++ "]".
Definition sel_password : string := "input[type=" ++ dq ++ "password" ++ dq ++ "]".
Definition sel_zoom_join : string := "button[class*=" ++ dq ++ "join" ++ dq ++ "]".
Definition sel_dismiss : string := "button[aria-label=" ++ dq ++ "Dismiss" ++ dq ++ "]".
Definition sel_name : string := "input[placeholder*=" ++ dq ++ "name" ++ dq ++ " i]".
Definition sel_meet_camera : string :=
  "div[role=" ++ dq ++ "button" ++ dq ++ "][aria-label*=" ++ dq ++ "camera" ++ dq ++ " i]".
Definition sel_meet_microphone : string :=
  "div[role=" ++ dq ++ "button" ++ dq ++ "][aria-label*=" ++ dq ++ "microphone" ++ dq ++ " i]".
Definition sel_meet_join : string := "button[jsname=" ++ dq ++ "Qx7uuf" ++ dq ++ "]".
Definition sel_web_client : string := "a[class*=" ++ dq ++ "use-web-client" ++ dq ++ "]".
Definition sel_teams_camera : string := "toggle-button[aria-label*=" ++ dq ++ "camera" ++ dq ++ " i]".
Definition sel_teams_mic : string := "toggle-button[aria-label*=" ++ dq ++ "mic" ++ dq ++ " i]".
Definition sel_teams_join : string := "button[class*=" ++ dq ++ "join-btn" ++ dq ++ "]".

Definition default_botName : string := "Verba AI Notetaker".

(** [if (meetingPassword)]: [undefined] and the empty string are falsy. *)
Definition truthy (s : option string) : bool :=
  match s with
  | Some (String _ _) => true
  | _ => false
  end.

(** [startAudioCapture(page, meetingId)]: the script is installed, then the
    console listener is attached to the page. *)
Definition startAudioCapture (pg : nat) (id : string) : M unit :=
  call pg EvaluateOnNewDocument ;;
  modify (add_listener pg id).

(** [this.activeMeetings.set(meetingId, { browser, page, platform,
    startTime: new Date(), status: 'active' })] *)
Definition store_session (br : nat) (plat id : string) : M unit :=
  t ← clock;
  meetings_set id (Meeting br br plat t "active").

Definition joinZoomMeeting (meetingUrl : string) (meetingPassword botName : option string)
  : M result :=
  try_catch
    (logger_info ("Joining Zoom meeting: " ++ meetingUrl) ;;
     br ← launch "puppeteer";
     call br NewPage ;;
     call br (OverridePermissions meetingUrl) ;;
     let webUrl := Str.replace "zoom.us/j/" "zoom.us/wc/join/" meetingUrl in
     call br (Goto webUrl) ;;
     call br (WaitForSelector sel_text) ;;
     call br (TypeText sel_text (default default_botName botName)) ;;
     (if truthy meetingPassword
      then call br (WaitForSelector sel_password) ;;
           call br (TypeText sel_password (default "" meetingPassword))
      else mret tt) ;;
     call br (Click sel_zoom_join) ;;
     let id := extractMeetingId meetingUrl in
     store_session br "zoom" id ;;
     startAudioCapture br id ;;
     logger_info ("Successfully joined Zoom meeting: " ++ id) ;;
     mret (joined id))
    (fun msg =>
       logger_error "Error joining Zoom meeting:" msg ;;
       mret (failed msg)).

Definition joinGoogleMeet (meetingUrl : string) (botName : option string) : M result :=
  try_catch
    (logger_info ("Joining Google Meet: " ++ meetingUrl) ;;
     br ← launch "chromium";
     call br NewContext ;;
     call br NewPage ;;
     call br (Goto meetingUrl) ;;
     try_catch (call br (Click sel_dismiss)) (fun _ => mret tt) ;;
     call br (WaitForSelector sel_name) ;;
     call br (Fill sel_name (default default_botName botName)) ;;
     call br (Click sel_meet_camera) ;;
     call br (Click sel_meet_microphone) ;;
     call br (Click sel_meet_join) ;;
     let id := extractMeetingId meetingUrl in
     store_session br "meet" id ;;
     startAudioCapture br id ;;
     logger_info ("Successfully joined Google Meet: " ++ id) ;;
     mret (joined id))
    (fun msg =>
       logger_error "Error joining Google Meet:" msg ;;
       mret (failed msg)).

Definition joinTeamsMeeting (meetingUrl : string) (botName : option string) : M result :=
  try_catch
    (logger_info ("Joining Teams meeting: " ++ meetingUrl) ;;
     br ← launch "chromium";
     call br NewPage ;;
     call br (Goto meetingUrl) ;;
     call br (WaitForSelector sel_web_client) ;;
     call br (Click sel_web_client) ;;
     call br (WaitForSelector sel_name) ;;
     call br (Fill sel_name (default default_botName botName)) ;;
     call br (Click sel_teams_camera) ;;
     call br (Click sel_teams_mic) ;;
     call br (Click sel_teams_join) ;;
     let id := extractMeetingId meetingUrl in
     store_session br "teams" id ;;
     startAudioCapture br id ;;
     logger_info ("Successfully joined Teams meeting: " ++ id) ;;
     mret (joined id))
    (fun msg =>
       logger_error "Error joining Teams meeting:" msg ;;
       mret (failed msg)).

(** [sendToTranscription(meetingId, audioData)] *)
Definition sendToTranscription (id audioData : string) : M unit :=
  try_catch
    (t ← clock;
     await (Post (Payload id audioData t)))
    (fun msg => logger_error "Error sending audio to transcription:" msg).

(** The listener of [page.on('console', ...)] for one message. *)
Definition on_console (id msg_type msg_text : string) : M unit :=
  if String.eqb msg_type "log" && Str.includes "AUDIO_DATA" msg_text
  then sendToTranscription id msg_text
  else mret tt.

Definition leaveMeeting (id : string) : M result :=
  m ← meetings_get id;
  match m with
  | None => mret (failed "Meeting not found")
  | Some mt =>
      try_catch
        (close (browser mt) ;;
         meetings_delete id ;;
         logger_info ("Left meeting: " ++ id) ;;
         mret left_ok)
        (fun msg =>
           logger_error "Error leaving meeting:" msg ;;
           mret (failed msg))
  end.

(** ** The HTTP handlers *)

(** The body of [POST /api/join-meeting]. *)
Record join_request := JoinRequest {
  req_platform : string;
  req_meetingUrl : string;
  req_password : option string;
  req_botName : option string
}.

(** [app.post('/api/join-meeting')]: the value passed to [res.json]. *)
Definition join_meeting (r : join_request) : M result :=
  let p := Str.toLowerCase (req_platform r) in
  if String.eqb p "zoom" then
    joinZoomMeeting (req_meetingUrl r) (req_password r) (req_botName r)
  else if String.eqb p "meet" || String.eqb p "google" then
    joinGoogleMeet (req_meetingUrl r) (req_botName r)
  else if String.eqb p "teams" || String.eqb p "microsoft" then
    joinTeamsMeeting (req_meetingUrl r) (req_botName r)
  else
    mret (failed "Unsupported platform").

(** [app.post('/api/leave-meeting')] *)
Definition leave_meeting (id : string) : M result := leaveMeeting id.

(** One element of the answer of [GET /api/active-meetings]. *)
Record summary := Summary {
  s_id : string;
  s_platform : string;
  s_startTime : Z;
  s_status : string
}.

Definition summarize (entry : string * meeting) : summary :=
  Summary entry.1 (platform entry.2) (startTime entry.2) (status entry.2).

(** [app.get('/api/active-meetings')] *)
Definition active_meetings (b : bot) : list summary :=
  summarize <$> map_to_list (activeMeetings b).

(** The body of [POST /api/schedule-bot].  [sched_cronTime] is the value of
    [new Date(scheduledTime)]; parsing the text is left to the caller. *)
Record schedule_request := ScheduleRequest {
  sched_meetingUrl : string;
  sched_scheduledTime : string;
  sched_cronTime : datetime;
  sched_platform : string;
  sched_password : option string
}.

Definition cronPattern (cronTime : datetime) : cron_pattern :=
  CronPattern (getMinutes cronTime) (getHours cronTime) (getDate cronTime)
              (getMonth cronTime + 1).

Record ack := Ack { ack_success : bool; ack_message : string }.

(** [app.post('/api/schedule-bot')]: the task is handed to [cron.schedule]
    and the handle it returns is dropped. *)
Definition schedule_bot (r : schedule_request) : M ack :=
  modify (add_task (CronTask (cronPattern (sched_cronTime r)) (sched_scheduledTime r)
                             (sched_platform r) (sched_meetingUrl r) (sched_password r))) ;;
  mret (Ack true ("Bot scheduled to join at " ++ sched_scheduledTime r)).

(** The callback given to [cron.schedule]. *)
Definition scheduled_callback (t : cron_task) : M unit :=
  logger_info ("Scheduled bot joining meeting at " ++ task_scheduledTime t) ;;
  let p := Str.toLowerCase (task_platform t) in
  if String.eqb p "zoom" then
    joinZoomMeeting (task_meetingUrl t) (task_password t) None ;; mret tt
  else if String.eqb p "meet" then
    joinGoogleMeet (task_meetingUrl t) None ;; mret tt
  else if String.eqb p "teams" then
    joinTeamsMeeting (task_meetingUrl t) None ;; mret tt
  else
    mret tt.

(** ** The scheduler ([node-cron])

    A five-field pattern [m h D M *] is due in every minute whose minute,
    hour, day of month and month (counted from 1) equal its fields, whatever
    the year and the day of the week.  A scheduled task stays scheduled until
    its [stop] or [destroy] is called. *)
Definition due (p : cron_pattern) (t : datetime) : bool :=
  (cron_minute p =? getMinutes t)%Z && (cron_hour p =? getHours t)%Z &&
  (cron_day p =? getDate t)%Z && (cron_month p =? getMonth t + 1)%Z.

(** The tasks are run in order; the [i]-th task runs in environment [envs i]
    and whatever its callback throws is lost. *)
Fixpoint run_due (ts : list cron_task) (i : nat) (t : datetime)
    (envs : nat -> env) (b : bot) : bot :=
  match ts with
  | [] => b
  | task :: ts' =>
      let b' := if due (task_pattern task) t
                then (scheduled_callback task (envs i) b).2
                else b in
      run_due ts' (S i) t envs b'
  end.

(** The clock reaches minute [t]. *)
Definition cron_tick (t : datetime) (envs : nat -> env) (b : bot) : bot :=
  run_due (tasks b) 0 t envs b.

(** A console message of page [pg] reaches every listener attached to it,
    oldest listener first. *)
Fixpoint deliver (ls : list (nat * string)) (pg : nat) (msg_type msg_text : string)
    (i : nat) (envs : nat -> env) (b : bot) : bot :=
  match ls with
  | [] => b
  | (pg', id) :: ls' =>
      let b' := deliver ls' pg msg_type msg_text (S i) envs b in
      if Nat.eqb pg pg'
      then (on_console id msg_type msg_text (envs i) b').2
      else b'
  end.

Definition console_message (pg : nat) (msg_type msg_text : string)
    (envs : nat -> env) (b : bot) : bot :=
  deliver (listeners b) pg msg_type msg_text 0 envs b.

(** ** The service as a transition system *)

Inductive input :=
  | JoinMeeting (r : join_request)
  | LeaveMeeting (id : string)
  | ActiveMeetings
  | ScheduleBot (r : schedule_request)
  | CronTick (t : datetime)
  | ConsoleMessage (pg : nat) (msg_type msg_text : string).

Definition handle (i : input) (envs : nat -> env) (b : bot) : bot :=
  match i with
  | JoinMeeting r => (join_meeting r (envs 0) b).2
  | LeaveMeeting id => (leave_meeting id (envs 0) b).2
  | ActiveMeetings => b
  | ScheduleBot r => (schedule_bot r (envs 0) b).2
  | CronTick t => cron_tick t envs b
  | ConsoleMessage pg ty tx => console_message pg ty tx envs b
  end.

(** The states the service can be in: started fresh, then any inputs under
    any environments. *)
Inductive reachable : bot -> Prop :=
  | reachable_new : reachable new_bot
  | reachable_handle b i envs : reachable b -> reachable (handle i envs b).

(** ** Observations on a state *)

Definition is_close_of (h : nat) (ev : event) : bool :=
  match ev with
  | Call h' Close => Nat.eqb h h'
  | _ => false
  end.

(** How many times [close] was called on browser [h]. *)
Fixpoint closes (h : nat) (evs : list event) : nat :=
  match evs with
  | [] => 0
  | ev :: evs' => (if is_close_of h ev then 1 else 0) + closes h evs'
  end.

Definition is_launch (ev : event) : bool :=
  match ev with
  | Launch _ => true
  | _ => false
  end.

(** How many browser launches were asked for. *)
Fixpoint launches (evs : list event) : nat :=
  match evs with
  | [] => 0
  | ev :: evs' => (if is_launch ev then 1 else 0) + launches evs'
  end.

Definition all_active (ms : gmap string meeting) : Prop :=
  ∀ id m, ms !! id = Some m → status m = "active".

Definition supported (p : string) : bool :=
  let p := Str.toLowerCase p in
  String.eqb p "zoom" || String.eqb p "meet" || String.eqb p "google" ||
  String.eqb p "teams" || String.eqb p "microsoft".

(** The tag stored for a request's platform. *)
Definition platform_tag (p : string) : string :=
  let p := Str.toLowerCase p in
  if String.eqb p "zoom" then "zoom"
  else if String.eqb p "meet" || String.eqb p "google" then "meet"
  else "teams".

(** What a join leaves behind, by the place where it stopped.  [h] is the
    handle of the browser the join launches. *)
Inductive join_case (plat url : string) (e : env) (b : bot) : result -> bot -> Prop :=
  | join_ok b' :
      activeMeetings b' =
        <[extractMeetingId url := Meeting (launched b) (launched b) plat (now e) "active"]>
          (activeMeetings b) ->
      launched b' = S (launched b) ->
      open_browsers b' = {[launched b]} ∪ open_browsers b ->
      listeners b' = (launched b, extractMeetingId url) :: listeners b ->
      launches (calls b') = S (launches (calls b)) ->
      join_case plat url e b (joined (extractMeetingId url)) b'
  | join_fail_launch msg b' :
      (∃ engine, rejects e (Launch engine) = Some msg) ->
      activeMeetings b' = activeMeetings b ->
      launched b' = launched b ->
      open_browsers b' = open_browsers b ->
      listeners b' = listeners b ->
      launches (calls b') = S (launches (calls b)) ->
      join_case plat url e b (failed msg) b'
  | join_fail_step msg b' :
      (∃ s, s ≠ EvaluateOnNewDocument ∧ rejects e (Call (launched b) s) = Some msg) ->
      activeMeetings b' = activeMeetings b ->
      launched b' = S (launched b) ->
      open_browsers b' = {[launched b]} ∪ open_browsers b ->
      listeners b' = listeners b ->
      launches (calls b') = S (launches (calls b)) ->
      join_case plat url e b (failed msg) b'
  | join_fail_capture msg b' :
      rejects e (Call (launched b) EvaluateOnNewDocument) = Some msg ->
      activeMeetings b' =
        <[extractMeetingId url := Meeting (launched b) (launched b) plat (now e) "active"]>
          (activeMeetings b) ->
      launched b' = S (launched b) ->
      open_browsers b' = {[launched b]} ∪ open_browsers b ->
      listeners b' = listeners b ->
      launches (calls b') = S (launches (calls b)) ->
      join_case plat url e b (failed msg) b'.

(** A join never throws, never closes a browser and never touches the
    scheduler; the rest depends on where it stopped. *)
Definition join_post (plat url : string) (e : env) (b : bot)
    (o : outcome result * bot) : Prop :=
  ∃ r b', o = (Ok r, b') ∧
    tasks b' = tasks b ∧
    (∀ k, closes k (calls b') = closes k (calls b)) ∧
    join_case plat url e b r b'.

(** The platforms for which the callback of a scheduled task joins. *)
Definition callback_joins (p : string) : bool :=
  let p := Str.toLowerCase p in
  String.eqb p "zoom" || String.eqb p "meet" || String.eqb p "teams".

(** The task a schedule request registers. *)
Definition task_of (r : schedule_request) : cron_task :=
  CronTask (cronPattern (sched_cronTime r)) (sched_scheduledTime r)
           (sched_platform r) (sched_meetingUrl r) (sched_password r).

(** How many of the tasks start a join in minute [t]. *)
Fixpoint firing (t : datetime) (ts : list cron_task) : nat :=
  match ts with
  | [] => 0
  | task :: ts' =>
      (if due (task_pattern task) t && callback_joins (task_platform task)
       then 1 else 0) + firing t ts'
  end.

(** The minute of [d] in year [y]. *)
Definition in_year (y : Z) (d : datetime) : datetime :=
  DateTime y (getMonth d) (getDate d) (getHours d) (getMinutes d).

(** ** Sample requests and environments *)

Definition zoom_request : join_request :=
  JoinRequest "zoom" "https://zoom.us/j/123456789" None None.

(** Navigation times out. *)
Definition goto_times_out (t : Z) : env :=
  Env (fun ev => match ev with
                 | Call _ (Goto _) => Some "Navigation timeout of 30000 ms exceeded"
                 | _ => None
                 end) t.

(** Installing the capture script fails. *)
Definition capture_fails (t : Z) : env :=
  Env (fun ev => match ev with
                 | Call _ EvaluateOnNewDocument => Some "Target closed"
                 | _ => None
                 end) t.

(** Closing the browser fails. *)
Definition close_fails (t : Z) : env :=
  Env (fun ev => match ev with
                 | Call _ Close => Some "Protocol error: Connection closed"
                 | _ => None
                 end) t.

(** The transcription service is unreachable. *)
Definition post_fails (t : Z) : env :=
  Env (fun ev => match ev with
                 | Post _ => Some "connect ECONNREFUSED"
                 | _ => None
                 end) t.

(** There is no popup to dismiss. *)
Definition no_popup (t : Z) : env :=
  Env (fun ev => match ev with
                 | Call _ (Click s) =>
                     if String.eqb s sel_dismiss
                     then Some "Timeout 3000ms exceeded" else None
                 | _ => None
                 end) t.

(** The bot after one successful Zoom join at time 1. *)
Definition in_meeting : bot := (join_meeting zoom_request (all_succeed 1) new_bot).2.

(** 10 March 2025, 14:30, and the same minute one year later. *)
Definition march_10_2025 : datetime := DateTime 2025 2 10 14 30.
Definition march_10_2026 : datetime := DateTime 2026 2 10 14 30.

Definition zoom_schedule : schedule_request :=
  ScheduleRequest "https://zoom.us/j/123456789" "2025-03-10T14:30:00"
                  march_10_2025 "zoom" None.

(** The bot after the schedule request alone. *)
Definition scheduled : bot := (schedule_bot zoom_schedule (all_succeed 0) new_bot).2.

(** ** The claims the code does not meet, as stated *)

(** A second join for an identifier that has a session is refused: it fails,
    launches nothing and leaves the Registry as it is. *)
Definition duplicate_join_rejected : Prop :=
  ∀ r1 r2 e1 e2 b,
    supported (req_platform r1) = true ->
    supported (req_platform r2) = true ->
    extractMeetingId (req_meetingUrl r1) = extractMeetingId (req_meetingUrl r2) ->
    (join_meeting r1 e1 b).1 = Ok (joined (extractMeetingId (req_meetingUrl r1))) ->
    let b1 := (join_meeting r1 e1 b).2 in
    let o2 := join_meeting r2 e2 b1 in
    (∃ msg, o2.1 = Ok (failed msg)) ∧
    launches (calls o2.2) = launches (calls b1) ∧
    activeMeetings o2.2 = activeMeetings b1.

(** A join that fails has closed the browser it launched and has left no
    entry under its identifier. *)
Definition failed_join_cleans_up : Prop :=
  ∀ r e b res b',
    supported (req_platform r) = true ->
    join_meeting r e b = (Ok res, b') ->
    success res = false ->
    open_browsers b' ⊆ open_browsers b ∧
    activeMeetings b' !! extractMeetingId (req_meetingUrl r) = None.


(** After a leave the entry is gone, whether or not the close succeeded. *)
Definition leave_always_removes : Prop :=
  ∀ id m e b,
    activeMeetings b !! id = Some m ->
    activeMeetings (leave_meeting id e b).2 !! id = None.

(** A scheduled join launches at most one browser, however many minutes
    pass. *)
Definition scheduled_join_fires_once : Prop :=
  ∀ r e b t1 t2 envs1 envs2,
    tasks b = [] ->
    t1 ≠ t2 ->
    let b0 := (schedule_bot r e b).2 in
    let b2 := cron_tick t2 envs2 (cron_tick t1 envs1 b0) in
    launches (calls b2) <= S (launches (calls b0)) ∧
    (launches (calls (cron_tick t1 envs1 b0)) = S (launches (calls b0)) ->
     tasks (cron_tick t1 envs1 b0) = []).

(** ** Ownership of browsers *)

(** Every open browser was launched; every registered session has an open
    browser, whose page it holds; no two sessions hold the same browser. *)
Definition well_owned (b : bot) : Prop :=
  (∀ h, h ∈ open_browsers b -> h < launched b) ∧
  (∀ id m, activeMeetings b !! id = Some m ->
           browser m ∈ open_browsers b ∧ page m = browser m) ∧
  (∀ id1 id2 m1 m2,
     activeMeetings b !! id1 = Some m1 -> activeMeetings b !! id2 = Some m2 ->
     browser m1 = browser m2 -> id1 = id2).

Definition is_leave (i : input) : bool :=
  match i with
  | LeaveMeeting _ => true
  | _ => false
  end.

(** The request [r] with its platform in lower case. *)
Definition lower_platform (r : join_request) : join_request :=
  JoinRequest (Str.toLowerCase (req_platform r)) (req_meetingUrl r)
              (req_password r) (req_botName r).

(** * The audio service: transcription sessions and clinical notes

    The first program of [audio-service/src/server.js]: the handlers of
    [/api/transcribe/stream] and [/api/generate/notes], the socket event
    [join_session], [/health] and their helpers.  The transcription and the
    completion services answer through the environment of a request. *)

Module Audio.

Section Service.

(** JavaScript numbers that are only handed on: the timings and the
    confidence of a word. *)
Context {number : Type}.

(** One element of [alternatives[0].words]; [w_speaker] is [None] when the
    word carries no speaker, else the speaker's integer label. *)
Record word := Word {
  w_word : string;
  w_start : number;
  w_end : number;
  w_confidence : number;
  w_speaker : option Z
}.

Record spoken := Spoken {
  sp_word : string;
  sp_start : number;
  sp_end : number;
  sp_confidence : number
}.

Definition to_spoken (w : word) : spoken :=
  Spoken (w_word w) (w_start w) (w_end w) (w_confidence w).

(** The body of the [forEach] of [extractSpeakers]. *)
Definition add_word (speakers : gmap Z (list spoken)) (w : word)
  : gmap Z (list spoken) :=
  match w_speaker w with
  | None => speakers
  | Some k =>
      let speakers1 :=
        match speakers !! k with
        | Some _ => speakers
        | None => <[k := []]> speakers
        end in
      alter (fun l => (l ++ [to_spoken w])%list) k speakers1
  end.

Definition extractSpeakers (words : list word) : gmap Z (list spoken) :=
  foldl add_word ∅ words.

Record transcription := Transcription {
  t_sessionId : string;
  t_transcript : string;
  t_words : list word;
  t_speakers : gmap Z (list spoken);
  t_timestamp : string
}.

(** The fields of [clientInfo] that are read. *)
Record client_info := ClientInfo {
  ci_name : option string;
  ci_dob : option string;
  ci_sessionType : option string
}.

Record note := Note {
  n_sessionId : string;
  n_noteType : string;
  n_content : string;
  n_generatedAt : string;
  n_wordCount : nat;
  n_clientInfo : client_info;
  n_sessionDuration : string
}.

(** A value of [activeSessions].  [ses_speakers] is the [Set] the session is
    created with. *)
Record session := Session {
  ses_id : string;
  ses_startTime : Z;
  ses_transcripts : list transcription;
  ses_speakers : list string;
  ses_clinicalNote : option note
}.

Inductive emission :=
  | EmitTranscription (room : string) (t : transcription)
  | EmitSessionData (socket sessionId : string) (transcripts : list transcription)
                    (speakers : list string).

Inductive request_out :=
  | Transcribe (audioBuffer : string)
  | Complete (prompt : string).

Record service := Service {
  activeSessions : gmap string session;
  emitted : list emission;          (* newest first *)
  rooms : list (string * string);   (* socket, room; newest first *)
  requests : list request_out;      (* newest first *)
  log : list log_entry              (* newest first *)
}.

Definition new_service : service := Service ∅ [] [] [] [].

(** The answer of [deepgram.listen.prerecorded.transcribeFile]: the call
    rejects, or a field read from its result is missing, which throws as
    well; it resolves with an [error]; or it resolves with a transcript and
    its words. *)
Inductive deepgram_answer :=
  | DgRejects (message : string)
  | DgError (error : string)
  | DgResult (transcript : string) (words : list word).

(** The answer of [openai.chat.completions.create]: it rejects, or the
    content cannot be read, which throws as well; or it gives the content. *)
Inductive openai_answer :=
  | AiRejects (message : string)
  | AiContent (content : string).

(** What the outside answers during one request.  [duration_text] is the
    value of [calculateSessionDuration], which divides and rounds floating
    point numbers and is not modelled. *)
Record env := Env {
  uuid : string;
  deepgram : deepgram_answer;
  openai : openai_answer;
  now : Z;
  iso_now : string;
  locale_date : string;
  duration_text : string
}.

Inductive body :=
  | BodyError (error : string)
  | BodyTranscription (sessionId : string) (t : transcription)
  | BodyNote (n : note).

Record response := Response { status_code : nat; res_body : body }.

Definition log_info (message : string) (a : service) : service :=
  Service (activeSessions a) (emitted a) (rooms a) (requests a) (Info message :: log a).

Definition log_error (message error : string) (a : service) : service :=
  Service (activeSessions a) (emitted a) (rooms a) (requests a)
          (Error message error :: log a).

Definition send (q : request_out) (a : service) : service :=
  Service (activeSessions a) (emitted a) (rooms a) (q :: requests a) (log a).

Definition emit (m : emission) (a : service) : service :=
  Service (activeSessions a) (m :: emitted a) (rooms a) (requests a) (log a).

Definition with_sessions (f : gmap string session -> gmap string session)
    (a : service) : service :=
  Service (f (activeSessions a)) (emitted a) (rooms a) (requests a) (log a).

Definition join_room (socket room : string) (a : service) : service :=
  Service (activeSessions a) (emitted a) ((socket, room) :: rooms a) (requests a) (log a).

(** [x || d] on a value that is a string or [undefined]. *)
Definition or_default (x : option string) (d : string) : string :=
  if truthy x then default d x else d.

(** The body of [POST /api/transcribe/stream]; [tr_file] is [req.file.buffer],
    [None] when the request carries no file. *)
Record transcribe_request := TranscribeRequest {
  tr_sessionId : option string;
  tr_file : option string
}.

(** The message of the [TypeError] that reading [req.file.buffer] throws
    when there is no file. *)
Definition no_file_message : string :=
  "Cannot read properties of undefined (reading 'buffer')".

Definition push_transcript (t : transcription) (s : session) : session :=
  Session (ses_id s) (ses_startTime s) (ses_transcripts s ++ [t])%list
          (ses_speakers s) (ses_clinicalNote s).

(** [if (!activeSessions.has(sessionId)) activeSessions.set(sessionId, ...)] *)
Definition ensure_session (id : string) (t : Z) (ms : gmap string session)
  : gmap string session :=
  match ms !! id with
  | Some _ => ms
  | None => <[id := Session id t [] [] None]> ms
  end.

(** [app.post('/api/transcribe/stream')] *)
Definition transcribe_stream (r : transcribe_request) (e : env) (a : service)
  : response * service :=
  let sessionId := or_default (tr_sessionId r) (uuid e) in
  match tr_file r with
  | None =>
      (Response 500 (BodyError no_file_message),
       log_error "Transcription error:" no_file_message a)
  | Some audioBuffer =>
      let a1 := log_info ("Starting transcription for session: " ++ sessionId) a in
      let a2 := send (Transcribe audioBuffer) a1 in
      match deepgram e with
      | DgRejects msg =>
          (Response 500 (BodyError msg), log_error "Transcription error:" msg a2)
      | DgError err =>
          (Response 500 (BodyError "Transcription failed"),
           log_error "Deepgram transcription error:" err a2)
      | DgResult transcript words =>
          let t := Transcription sessionId transcript words (extractSpeakers words)
                                 (iso_now e) in
          let a3 := with_sessions (ensure_session sessionId (now e)) a2 in
          let a4 := with_sessions (alter (push_transcript t) sessionId) a3 in
          let a5 := emit (EmitTranscription ("session_" ++ sessionId) t) a4 in
          (Response 200 (BodyTranscription sessionId t), a5)
      end
  end.

(** [xs.join(sep)] *)
Fixpoint join (sep : string) (xs : list string) : string :=
  match xs with
  | [] => ""
  | [x] => x
  | x :: xs' => x ++ sep ++ join sep xs'
  end.

(** [s.split(' ')]: the pieces between the spaces; never empty. *)
Fixpoint split_spaces (s : string) : list string :=
  match s with
  | EmptyString => [""]
  | String c s' =>
      if Ascii.eqb c " " then "" :: split_spaces s'
      else match split_spaces s' with
           | [] => [String c ""]
           | piece :: pieces => String c piece :: pieces
           end
  end.

Fixpoint count_spaces (s : string) : nat :=
  match s with
  | EmptyString => 0
  | String c s' => (if Ascii.eqb c " " then 1 else 0) + count_spaces s'
  end.

Definition nl : string := String "010"%char EmptyString.

(** [createClinicalNotePrompt(noteType, transcript, clientInfo)]; [today] is
    [new Date().toLocaleDateString()]. *)
Definition createClinicalNotePrompt (noteType transcript : string)
    (clientInfo : client_info) (today : string) : string :=
  nl ++ "Generate a professional " ++ noteType
     ++ " clinical note based on the following therapy session transcript." ++ nl
  ++ nl
  ++ "Client Information:" ++ nl
  ++ "- Name: " ++ or_default (ci_name clientInfo) "Client" ++ nl
  ++ "- Date of Birth: " ++ or_default (ci_dob clientInfo) "Not provided" ++ nl
  ++ "- Session Date: " ++ today ++ nl
  ++ "- Session Type: " ++ or_default (ci_sessionType clientInfo) "Individual Therapy" ++ nl
  ++ nl
  ++ "Session Transcript:" ++ nl
  ++ transcript ++ nl
  ++ nl
  ++ "Requirements:" ++ nl
  ++ "- Use objective, behaviorally anchored language" ++ nl
  ++ "- Maintain HIPAA compliance" ++ nl
  ++ "- Include relevant clinical observations" ++ nl
  ++ "- Avoid subjective interpretations" ++ nl
  ++ "- Follow " ++ noteType ++ " format structure" ++ nl
  ++ "- Include risk assessment if applicable" ++ nl
  ++ "- Suggest treatment plan elements" ++ nl.

(** [`[${t.timestamp}] ${t.transcript}`] *)
Definition transcript_line (t : transcription) : string :=
  "[" ++ t_timestamp t ++ "] " ++ t_transcript t.

Definition fullTranscript (s : session) : string :=
  join nl (transcript_line <$> ses_transcripts s).

(** The body of [POST /api/generate/notes]. *)
Record notes_request := NotesRequest {
  nr_sessionId : option string;
  nr_noteType : option string;
  nr_clientInfo : option client_info
}.

Definition set_note (n : note) (s : session) : session :=
  Session (ses_id s) (ses_startTime s) (ses_transcripts s) (ses_speakers s) (Some n).

(** [activeSessions.get(sessionId)] with a [sessionId] that may be
    [undefined]. *)
Definition find_session (id : option string) (a : service) : option session :=
  match id with
  | Some i => activeSessions a !! i
  | None => None
  end.

(** [app.post('/api/generate/notes')] *)
Definition generate_notes (r : notes_request) (e : env) (a : service)
  : response * service :=
  match find_session (nr_sessionId r) a with
  | None => (Response 404 (BodyError "Session not found"), a)
  | Some s =>
      let sessionId := default "" (nr_sessionId r) in
      let noteType := default "SOAP" (nr_noteType r) in
      let clientInfo := default (ClientInfo None None None) (nr_clientInfo r) in
      let a1 := log_info ("Generating " ++ noteType ++ " notes for session: " ++ sessionId) a in
      let prompt := createClinicalNotePrompt noteType (fullTranscript s) clientInfo
                                             (locale_date e) in
      let a2 := send (Complete prompt) a1 in
      match openai e with
      | AiRejects msg =>
          (Response 500 (BodyError msg), log_error "Note generation error:" msg a2)
      | AiContent content =>
          let n := Note sessionId noteType content (iso_now e)
                        (length (split_spaces content)) clientInfo (duration_text e) in
          (Response 200 (BodyNote n),
           with_sessions (alter (set_note n) sessionId) a2)
      end
  end.

(** [socket.on('join_session', ...)] for the socket named [socket]. *)
Definition join_session (socket sessionId : string) (a : service) : service :=
  let a1 := join_room socket ("session_" ++ sessionId) a in
  let a2 := log_info ("Client " ++ socket ++ " joined session: " ++ sessionId) a1 in
  match activeSessions a2 !! sessionId with
  | Some s =>
      emit (EmitSessionData socket sessionId (ses_transcripts s) (ses_speakers s)) a2
  | None => a2
  end.

(** The [activeSessions] field of the answer of [GET /health]. *)
Definition health (a : service) : nat := size (activeSessions a).

Inductive input :=
  | TranscribeStream (r : transcribe_request)
  | GenerateNotes (r : notes_request)
  | JoinSession (socket sessionId : string)
  | Health.

Definition handle (i : input) (e : env) (a : service) : service :=
  match i with
  | TranscribeStream r => (transcribe_stream r e a).2
  | GenerateNotes r => (generate_notes r e a).2
  | JoinSession socket sessionId => join_session socket sessionId a
  | Health => a
  end.

Inductive reachable : service -> Prop :=
  | reachable_new : reachable new_service
  | reachable_handle a i e : reachable a -> reachable (handle i e a).

(** A stored session carries its own key, an empty set of speakers, and a
    note, if any, made for it. *)
Definition well_formed (a : service) : Prop :=
  ∀ id s, activeSessions a !! id = Some s ->
    ses_id s = id ∧ ses_speakers s = [] ∧
    ∀ n, ses_clinicalNote s = Some n -> n_sessionId n = id.

(** An emitted [session_data] lists no speakers. *)
Definition without_speakers (m : emission) : Prop :=
  match m with
  | EmitSessionData _ _ _ speakers => speakers = []
  | EmitTranscription _ _ => True
  end.

(** The words of speaker [k], in order. *)
Definition words_of (k : Z) (words : list word) : list word :=
  List.filter (fun w => match w_speaker w with
                        | Some k' => Z.eqb k k'
                        | None => false
                        end) words.

End Service.

End Audio.

(** ** Sample inputs of the audio service *)

Definition sample_words : list (Audio.word (number := Z)) :=
  [Audio.Word "hello" 0%Z 400%Z 99%Z (Some 0%Z);
   Audio.Word "there" 450%Z 900%Z 97%Z (Some 1%Z)].

(** The transcription service hears two words; the completion service
    writes three. *)
Definition audio_heard : Audio.env (number := Z) :=
  Audio.Env "generated-id" (Audio.DgResult "hello there" sample_words)
            (Audio.AiContent "Client greeted therapist") 1000 "2025-03-10T14:30:00.000Z"
            "3/10/2025" "0 minutes".

(** The transcription service cannot be reached. *)
Definition audio_refused : Audio.env (number := Z) :=
  Audio.Env "generated-id" (Audio.DgRejects "connect ECONNREFUSED")
            (Audio.AiRejects "connect ECONNREFUSED") 1000 "2025-03-10T14:30:00.000Z"
            "3/10/2025" "0 minutes".

Definition first_transcription : Audio.transcription (number := Z) :=
  Audio.Transcription "s1" "hello there" sample_words (Audio.extractSpeakers sample_words)
                      "2025-03-10T14:30:00.000Z".

(** The service after one transcription for session [s1]. *)
Definition one_session : Audio.service (number := Z) :=
  Audio.handle (Audio.TranscribeStream (Audio.TranscribeRequest (Some "s1") (Some "RIFF")))
               audio_heard Audio.new_service.

(** ** Where a failed join stopped *)

(** A join that answers with a failure stopped at the last call it made:
    that call was rejected and its message is the one returned.  Unless that
    call is the launch, the browser of the join was launched and is open;
    unless it is the installation of the capture script, which comes after
    the session is stored, the Registry is what it was. *)
Definition join_failure_post (e : env) (b : bot) (o : outcome result * bot) : Prop :=
  ∀ res b',
    o = (Ok res, b') ->
    success res = false ->
    ∃ ev msg rest,
      calls b' = ev :: rest ∧
      res = failed msg ∧
      rejects e ev = Some msg ∧
      ((∀ engine, ev ≠ Launch engine) ->
       launched b' = S (launched b) ∧ launched b ∈ open_browsers b') ∧
      (ev ≠ Call (launched b) EvaluateOnNewDocument ->
       activeMeetings b' = activeMeetings b).

(** ** A leave in two steps

    [leaveMeeting] suspends once, at [await meeting.browser.close()]; other
    requests may be served in between.  [leave_start] is the part before the
    suspension: the lookup and, for a registered session, the call of
    [close].  [leave_finish] is the part after it: the promise of [close]
    has settled, as the environment says. *)

Inductive leave_state :=
  | LeaveDone (r : result)
  | LeaveClosing (m : meeting).

Definition leave_start (id : string) : M leave_state :=
  m ← meetings_get id;
  match m with
  | None => mret (LeaveDone (failed "Meeting not found"))
  | Some mt =>
      modify (record_call (Call (browser mt) Close)) ;;
      mret (LeaveClosing mt)
  end.

(** The outcome of a call made earlier. *)
Definition settle (ev : event) : M unit := fun e b =>
  match rejects e ev with
  | Some msg => (Throw msg, b)
  | None => (Ok tt, b)
  end.

Definition leave_finish (id : string) (mt : meeting) : M result :=
  try_catch
    (settle (Call (browser mt) Close) ;;
     modify (drop_browser (browser mt)) ;;
     meetings_delete id ;;
     logger_info ("Left meeting: " ++ id) ;;
     mret left_ok)
    (fun msg =>
       logger_error "Error leaving meeting:" msg ;;
       mret (failed msg)).

(** A leave served without interruption. *)
Definition leave_uninterrupted (id : string) : M result :=
  st ← leave_start id;
  match st with
  | LeaveDone r => mret r
  | LeaveClosing mt => leave_finish id mt
  end.

(** Two leaves of [id]: the second one starts while the first one waits for
    its [close]; then the first one finishes, then the second one.  The
    result is the answers of the two and the final state. *)
Definition leave_interleaved (id : string) (e1 e2 : env) (b : bot)
  : outcome result * outcome result * bot :=
  match leave_start id e1 b with
  | (Ok (LeaveClosing m1), b1) =>
      match leave_start id e2 b1 with
      | (Ok (LeaveClosing m2), b2) =>
          let (r1, b3) := leave_finish id m1 e1 b2 in
          let (r2, b4) := leave_finish id m2 e2 b3 in
          (r1, r2, b4)
      | (Ok (LeaveDone r2), b2) =>
          let (r1, b3) := leave_finish id m1 e1 b2 in
          (r1, Ok r2, b3)
      | (Throw msg, b2) =>
          let (r1, b3) := leave_finish id m1 e1 b2 in
          (r1, Throw msg, b3)
      end
  | (Ok (LeaveDone r1), b1) =>
      let (r2, b2) := leave_uninterrupted id e2 b1 in
      (Ok r1, r2, b2)
  | (Throw msg, b1) =>
      let (r2, b2) := leave_uninterrupted id e2 b1 in
      (Throw msg, r2, b2)
  end.

(** ** A schedule request whose time may not parse *)



(** * Properties *)

Ltac run_bot H :=
  cbv [joinZoomMeeting joinGoogleMeet joinTeamsMeeting leaveMeeting
       sendToTranscription startAudioCapture store_session
       try_catch mbind M_bind mret M_ret call await launch close
       logger_info logger_error clock meetings_get meetings_set meetings_delete
       modify record_call record_log with_meetings add_browser drop_browser
       add_listener add_task
       activeMeetings launched open_browsers calls listeners log tasks] in H.

(** Symbolic execution of a method in a hypothesis [H : o = method ... e b]:
    one case split per awaited call, in program order. *)
Ltac step_bot H e :=
  match type of H with
  | context [rejects e ?ev] =>
      destruct (rejects e ev) eqn:?; cbv beta iota zeta in H
  end.

Ltac finish_join H :=
  rewrite H; eexists _, _; split; [reflexivity|];
  split; [reflexivity|]; split; [intros; reflexivity|];
  first [ eapply join_ok; reflexivity
        | eapply join_fail_launch; [eexists; eassumption | reflexivity ..]
        | eapply join_fail_capture; [eassumption | reflexivity ..]
        | eapply join_fail_step;
          [eexists; split; [|eassumption]; discriminate | reflexivity ..] ].

Ltac run_join H e :=
  run_bot H; repeat (step_bot H e; try (finish_join H)); finish_join H.

Lemma joinZoomMeeting_post url pw name e b :
  join_post "zoom" url e b (joinZoomMeeting url pw name e b).
Proof.
  unfold join_post. destruct b as [ms n op cs ls lg ts].
  remember (joinZoomMeeting _ _ _ _ _) as o eqn:H.
  unfold joinZoomMeeting in H. destruct (truthy pw); run_join H e.
Qed.

Lemma joinTeamsMeeting_post url name e b :
  join_post "teams" url e b (joinTeamsMeeting url name e b).
Proof.
  unfold join_post. destruct b as [ms n op cs ls lg ts].
  remember (joinTeamsMeeting _ _ _ _) as o eqn:H.
  run_join H e.
Qed.

Lemma joinGoogleMeet_post url name e b :
  join_post "meet" url e b (joinGoogleMeet url name e b).
Proof.
  unfold join_post. destruct b as [ms n op cs ls lg ts].
  remember (joinGoogleMeet _ _ _ _) as o eqn:H.
  run_join H e.
Qed.

Lemma join_meeting_post r e b :
  supported (req_platform r) = true ->
  join_post (platform_tag (req_platform r)) (req_meetingUrl r) e b (join_meeting r e b).
Proof.
  unfold supported, platform_tag, join_meeting. cbv zeta.
  destruct (String.eqb _ "zoom"); [intros _; apply joinZoomMeeting_post|].
  destruct (String.eqb _ "meet"); [intros _; apply joinGoogleMeet_post|].
  destruct (String.eqb _ "google"); [intros _; apply joinGoogleMeet_post|].
  destruct (String.eqb _ "teams"); [intros _; apply joinTeamsMeeting_post|].
  destruct (String.eqb _ "microsoft"); [intros _; apply joinTeamsMeeting_post|].
  discriminate.
Qed.

Lemma join_meeting_unsupported r e b :
  supported (req_platform r) = false ->
  join_meeting r e b = (Ok (failed "Unsupported platform"), b).
Proof.
  unfold supported, join_meeting. cbv zeta.
  destruct (String.eqb _ "zoom"); [discriminate|].
  destruct (String.eqb _ "meet"); [discriminate|].
  destruct (String.eqb _ "google"); [discriminate|].
  destruct (String.eqb _ "teams"); [discriminate|].
  destruct (String.eqb _ "microsoft"); [discriminate|].
  reflexivity.
Qed.

Lemma leaveMeeting_absent id e b :
  activeMeetings b !! id = None ->
  leaveMeeting id e b = (Ok (failed "Meeting not found"), b).
Proof.
  intros H. unfold leaveMeeting, mbind, M_bind, meetings_get. rewrite H. reflexivity.
Qed.

Lemma leaveMeeting_closed id m e b :
  activeMeetings b !! id = Some m ->
  rejects e (Call (browser m) Close) = None ->
  leaveMeeting id e b =
    (Ok left_ok,
     record_log (Info ("Left meeting: " ++ id))
       (with_meetings (delete id)
          (drop_browser (browser m) (record_call (Call (browser m) Close) b)))).
Proof.
  intros H Hc. unfold leaveMeeting, mbind, M_bind, meetings_get. rewrite H.
  unfold try_catch, close, call, await, mbind, M_bind. rewrite Hc. reflexivity.
Qed.

Lemma leaveMeeting_close_rejected id m msg e b :
  activeMeetings b !! id = Some m ->
  rejects e (Call (browser m) Close) = Some msg ->
  leaveMeeting id e b =
    (Ok (failed msg),
     record_log (Error "Error leaving meeting:" msg)
       (record_call (Call (browser m) Close) b)).
Proof.
  intros H Hc. unfold leaveMeeting, mbind, M_bind, meetings_get. rewrite H.
  unfold try_catch, close, call, await, mbind, M_bind. rewrite Hc. reflexivity.
Qed.

Lemma sendToTranscription_run id data e b :
  sendToTranscription id data e b =
    (Ok tt,
     match rejects e (Post (Payload id data (now e))) with
     | Some msg =>
         record_log (Error "Error sending audio to transcription:" msg)
           (record_call (Post (Payload id data (now e))) b)
     | None => record_call (Post (Payload id data (now e))) b
     end).
Proof.
  unfold sendToTranscription, try_catch, mbind, M_bind, clock, await.
  destruct (rejects e _); reflexivity.
Qed.

(** ** Meeting identifiers *)

Example extract_teams :
  extractMeetingId "https://teams.microsoft.com/l/meetup-join/19%3ameeting_abc/0?c=1"
  = "19%3ameeting_abc".
Proof. reflexivity. Qed.

(** The first [/j/] that is followed by a digit decides, not the first [/j/]. *)
Example extract_leftmost :
  extractMeetingId "https://zoom.us/j/abc/j/42?pwd=1" = "42".
Proof. reflexivity. Qed.

(** The patterns are tried in the order zoom, meet, teams. *)
Example extract_order :
  extractMeetingId "https://meet.google.com/abc-defg-hij/j/7" = "7".
Proof. reflexivity. Qed.

Lemma take_length n s : String.length (Str.take n s) <= n.
Proof.
  revert s. induction n as [|n IH]; intros [|c s]; simpl; try lia.
  specialize (IH s). lia.
Qed.

Lemma filter_Forall f s : Str.Forall_chars f (Str.filter f s) = true.
Proof.
  induction s as [|c s IH]; simpl; [reflexivity|].
  destruct (f c) eqn:Hc; simpl; [rewrite Hc|]; exact IH.
Qed.

Lemma take_Forall f n s :
  Str.Forall_chars f s = true -> Str.Forall_chars f (Str.take n s) = true.
Proof.
  revert s. induction n as [|n IH]; intros [|c s]; simpl; try reflexivity.
  intros H. apply andb_prop in H as [Hc Hs]. rewrite Hc. simpl. auto.
Qed.

Lemma extractMeetingId_fallback url :
  Str.match_group zoom_pattern url = None ->
  Str.match_group meet_pattern url = None ->
  Str.match_group teams_pattern url = None ->
  extractMeetingId url = slug url.
Proof.
  intros Hz Hm Ht. unfold extractMeetingId, patterns, first_match.
  rewrite Hz, Hm, Ht. reflexivity.
Qed.

Lemma join_meeting_id r e b id :
  (join_meeting r e b).1 = Ok (joined id) ->
  id = extractMeetingId (req_meetingUrl r).
Proof.
  destruct (supported (req_platform r)) eqn:Hs.
  - destruct (join_meeting_post r e b Hs) as (res & b' & -> & _ & _ & Hc).
    simpl. intros [= ->]. inversion Hc as [b0 _ _ _ _ _ Hid| | |]. congruence.
  - rewrite join_meeting_unsupported by exact Hs. discriminate.
Qed.

(** C3: the meeting identifier is a function of the URL text alone.  The two
    sample URLs give [123456789] and [abc-defg-hij]; a URL that matches none
    of the three patterns gives its alphanumeric characters cut at twenty;
    and two joins of the same URL that succeed return the same identifier,
    whatever the platform named, the state of the bot and the behaviour of
    the browser. *)
Theorem extractMeetingId_deterministic :
  extractMeetingId "https://zoom.us/j/123456789" = "123456789" ∧
  extractMeetingId "https://meet.google.com/abc-defg-hij" = "abc-defg-hij" ∧
  (∀ url,
     Str.match_group zoom_pattern url = None ->
     Str.match_group meet_pattern url = None ->
     Str.match_group teams_pattern url = None ->
     extractMeetingId url = Str.take 20 (Str.filter Str.is_alnum url) ∧
     String.length (extractMeetingId url) <= 20 ∧
     Str.Forall_chars Str.is_alnum (extractMeetingId url) = true) ∧
  (∀ r1 r2 e1 e2 b1 b2 id1 id2,
     req_meetingUrl r1 = req_meetingUrl r2 ->
     (join_meeting r1 e1 b1).1 = Ok (joined id1) ->
     (join_meeting r2 e2 b2).1 = Ok (joined id2) ->
     id1 = id2 ∧ id1 = extractMeetingId (req_meetingUrl r1)).
Proof.
  split; [reflexivity|]. split; [reflexivity|]. split.
  - intros url Hz Hm Ht. rewrite (extractMeetingId_fallback url Hz Hm Ht).
    unfold slug. split; [reflexivity|]. split.
    + apply take_length.
    + apply take_Forall, filter_Forall.
  - intros r1 r2 e1 e2 b1 b2 id1 id2 Hu H1 H2.
    apply join_meeting_id in H1. apply join_meeting_id in H2.
    rewrite <- Hu in H2. split; congruence.
Qed.

Lemma extractMeetingId_deterministic_witness :
  extractMeetingId "https://example.org/room?x=1&y=two-three-four-five"
    = "httpsexampleorgroomx" ∧
  (join_meeting (JoinRequest "Zoom" "https://zoom.us/j/123456789" None None)
     (all_succeed 5) new_bot).1 = Ok (joined "123456789").
Proof.
  destruct extractMeetingId_deterministic as (_ & _ & Hslug & Hjoin). split.
  - destruct (Hslug "https://example.org/room?x=1&y=two-three-four-five")
      as (H & _ & _); [reflexivity ..|].
    rewrite H. reflexivity.
  - destruct (Hjoin (JoinRequest "Zoom" "https://zoom.us/j/123456789" None None)
                    (JoinRequest "zoom" "https://zoom.us/j/123456789" (Some "pw") None)
                    (all_succeed 5) (all_succeed 9) new_bot new_bot
                    "123456789" "123456789") as (_ & H);
      [reflexivity ..|].
    reflexivity.
Defined.

(** ** Leaving a meeting that is not registered *)

(** C4: for a meetingId with no session in the Registry, leaving returns the
    failure outcome [Meeting not found]; the call does not throw and the
    state of the bot, its Registry included, is unchanged. *)
Theorem leave_unknown_meeting id e b :
  activeMeetings b !! id = None ->
  leave_meeting id e b = (Ok (failed "Meeting not found"), b).
Proof. apply leaveMeeting_absent. Qed.

Lemma leave_unknown_meeting_witness :
  leave_meeting "123456789" (all_succeed 0) new_bot
  = (Ok (failed "Meeting not found"), new_bot).
Proof. apply leave_unknown_meeting. reflexivity. Defined.

(** ** Unsupported platforms *)

(** C8: a join request that names a platform other than zoom, meet, google,
    teams or microsoft (in any letter case) is answered with the failure
    outcome [Unsupported platform]; no browser is launched and the state of
    the bot is unchanged. *)
Theorem join_unsupported_platform r e b :
  supported (req_platform r) = false ->
  join_meeting r e b = (Ok (failed "Unsupported platform"), b) ∧
  launches (calls (join_meeting r e b).2) = launches (calls b) ∧
  activeMeetings (join_meeting r e b).2 = activeMeetings b.
Proof.
  intros H. rewrite (join_meeting_unsupported r e b H). auto.
Qed.

Lemma join_unsupported_platform_witness :
  join_meeting (JoinRequest "webex" "https://example.webex.com/meet/x" None None)
    (all_succeed 0) new_bot
  = (Ok (failed "Unsupported platform"), new_bot).
Proof.
  apply (join_unsupported_platform
           (JoinRequest "webex" "https://example.webex.com/meet/x" None None)).
  reflexivity.
Defined.

(** ** The join methods on sample inputs *)

Example zoom_join_calls :
  calls (joinZoomMeeting "https://zoom.us/j/123456789" (Some "s3cret") None
           (all_succeed 1) new_bot).2
  = [Call 0 EvaluateOnNewDocument;
     Call 0 (Click sel_zoom_join);
     Call 0 (TypeText sel_password "s3cret");
     Call 0 (WaitForSelector sel_password);
     Call 0 (TypeText sel_text "Verba AI Notetaker");
     Call 0 (WaitForSelector sel_text);
     Call 0 (Goto "https://zoom.us/wc/join/123456789");
     Call 0 (OverridePermissions "https://zoom.us/j/123456789");
     Call 0 NewPage;
     Launch "puppeteer"].
Proof. vm_compute. reflexivity. Qed.

(** An empty password is not typed. *)
Example zoom_join_empty_password :
  calls (joinZoomMeeting "https://zoom.us/j/1" (Some "") (Some "Bot")
           (all_succeed 1) new_bot).2
  = [Call 0 EvaluateOnNewDocument;
     Call 0 (Click sel_zoom_join);
     Call 0 (TypeText sel_text "Bot");
     Call 0 (WaitForSelector sel_text);
     Call 0 (Goto "https://zoom.us/wc/join/1");
     Call 0 (OverridePermissions "https://zoom.us/j/1");
     Call 0 NewPage;
     Launch "puppeteer"].
Proof. vm_compute. reflexivity. Qed.

(** A popup that cannot be dismissed does not stop a Google Meet join. *)
Example meet_join_without_popup :
  (joinGoogleMeet "https://meet.google.com/abc-defg-hij" None (no_popup 1) new_bot).1
  = Ok (joined "abc-defg-hij").
Proof. vm_compute. reflexivity. Qed.

(** The callback of a scheduled task knows [meet] but not [google]. *)
Example callback_platforms :
  callback_joins "Meet" = true ∧ callback_joins "google" = false ∧
  supported "google" = true.
Proof. vm_compute. auto. Qed.

(** ** Two joins for one meeting *)

Lemma active_meetings_ids b : s_id <$> active_meetings b = (map_to_list (activeMeetings b)).*1.
Proof.
  unfold active_meetings. rewrite <- list_fmap_compose. reflexivity.
Qed.

(** The Registry is a map: the list of active meetings names an identifier
    at most once. *)
Lemma active_meetings_NoDup b : NoDup (s_id <$> active_meetings b).
Proof. rewrite active_meetings_ids. apply NoDup_fst_map_to_list. Qed.

Lemma join_case_succeeds plat url e b r b' :
  (∀ ev, rejects e ev = None) ->
  join_case plat url e b r b' ->
  r = joined (extractMeetingId url) ∧
  activeMeetings b' =
    <[extractMeetingId url := Meeting (launched b) (launched b) plat (now e) "active"]>
      (activeMeetings b) ∧
  launched b' = S (launched b) ∧
  open_browsers b' = {[launched b]} ∪ open_browsers b ∧
  launches (calls b') = S (launches (calls b)).
Proof.
  intros Hall Hc. destruct Hc as [b' Hm Hl Ho _ Hn
                                 |msg b' [engine Hr] _ _ _ _ _
                                 |msg b' (s & _ & Hr) _ _ _ _ _
                                 |msg b' Hr _ _ _ _ _];
    try (rewrite Hall in Hr; discriminate).
  auto.
Qed.

(** The second of two successful joins of [zoom_request]: it succeeds too,
    under the same identifier, with a browser of its own; the entry of the
    first join is replaced and the first browser stays open. *)
Lemma duplicate_join_counterexample :
  (join_meeting zoom_request (all_succeed 1) new_bot).1 = Ok (joined "123456789") ∧
  activeMeetings in_meeting !! "123456789" = Some (Meeting 0 0 "zoom" 1 "active") ∧
  (join_meeting zoom_request (all_succeed 2) in_meeting).1 = Ok (joined "123456789") ∧
  launches (calls (join_meeting zoom_request (all_succeed 2) in_meeting).2) = 2 ∧
  activeMeetings (join_meeting zoom_request (all_succeed 2) in_meeting).2 !! "123456789"
    = Some (Meeting 1 1 "zoom" 2 "active") ∧
  open_browsers (join_meeting zoom_request (all_succeed 2) in_meeting).2 = {[0; 1]} ∧
  ¬ duplicate_join_rejected.
Proof.
  do 6 (split; [vm_compute; reflexivity|]).
  intros H.
  destruct (H zoom_request zoom_request (all_succeed 1) (all_succeed 2) new_bot)
    as ((msg & Hmsg) & _); try reflexivity.
  vm_compute in Hmsg. discriminate.
Qed.

(** C1 (amended): the Registry holds at most one entry per identifier, and a
    join whose steps all succeed is never refused: whether or not a session
    is registered under the identifier of its URL, it launches a browser of
    its own, returns success with that identifier and stores its entry under
    it, replacing what was there; it closes no browser. *)
Theorem duplicate_join_replaces r e b :
  supported (req_platform r) = true ->
  (∀ ev, rejects e ev = None) ->
  ∃ b',
    join_meeting r e b = (Ok (joined (extractMeetingId (req_meetingUrl r))), b') ∧
    activeMeetings b' =
      <[extractMeetingId (req_meetingUrl r) :=
          Meeting (launched b) (launched b) (platform_tag (req_platform r)) (now e) "active"]>
        (activeMeetings b) ∧
    launches (calls b') = S (launches (calls b)) ∧
    open_browsers b' = {[launched b]} ∪ open_browsers b ∧
    (∀ k, closes k (calls b') = closes k (calls b)) ∧
    NoDup (s_id <$> active_meetings b) ∧
    NoDup (s_id <$> active_meetings b').
Proof.
  intros Hs Hall.
  destruct (join_meeting_post r e b Hs) as (res & b' & Heq & _ & Hcl & Hc).
  destruct (join_case_succeeds _ _ _ _ _ _ Hall Hc) as (-> & Hm & _ & Ho & Hn).
  exists b'. auto 10 using active_meetings_NoDup.
Qed.

Lemma duplicate_join_replaces_witness :
  ∃ b',
    join_meeting zoom_request (all_succeed 2) in_meeting = (Ok (joined "123456789"), b') ∧
    activeMeetings b' !! "123456789" = Some (Meeting 1 1 "zoom" 2 "active").
Proof.
  destruct (duplicate_join_replaces zoom_request (all_succeed 2) in_meeting)
    as (b' & Heq & Hm & _); [reflexivity | reflexivity |].
  exists b'. split; [exact Heq|].
  rewrite Hm. apply lookup_insert_eq.
Defined.

(** ** Joins that fail *)

(** A join whose navigation times out returns a failure and leaves the
    browser it launched open, never closed; a join whose capture script
    cannot be installed returns a failure and leaves its entry registered. *)
Lemma failed_join_counterexample :
  (join_meeting zoom_request (goto_times_out 1) new_bot).1
    = Ok (failed "Navigation timeout of 30000 ms exceeded") ∧
  open_browsers (join_meeting zoom_request (goto_times_out 1) new_bot).2 = {[0]} ∧
  closes 0 (calls (join_meeting zoom_request (goto_times_out 1) new_bot).2) = 0 ∧
  (join_meeting zoom_request (capture_fails 1) new_bot).1 = Ok (failed "Target closed") ∧
  activeMeetings (join_meeting zoom_request (capture_fails 1) new_bot).2 !! "123456789"
    = Some (Meeting 0 0 "zoom" 1 "active") ∧
  ¬ failed_join_cleans_up.
Proof.
  do 5 (split; [vm_compute; reflexivity|]).
  intros H.
  destruct (H zoom_request (goto_times_out 1) new_bot
              (failed "Navigation timeout of 30000 ms exceeded")
              (join_meeting zoom_request (goto_times_out 1) new_bot).2)
    as (Hopen & _); [reflexivity | vm_compute; reflexivity | reflexivity |].
  assert (Hin : 0 ∈ open_browsers (join_meeting zoom_request (goto_times_out 1) new_bot).2)
    by (vm_compute; reflexivity).
  apply Hopen in Hin. vm_compute in Hin. discriminate.
Qed.

Ltac finish_failure H :=
  rewrite H; intros res b' Heq Hs; injection Heq as <- <-;
  first
    [ discriminate Hs
    | eexists _, _, _; split; [reflexivity|]; split; [reflexivity|];
      split; [eassumption|]; split;
      [ first [ intros Hn; exfalso; exact (Hn _ eq_refl)
              | intros _; split;
                [reflexivity|apply elem_of_union_l, elem_of_singleton; reflexivity] ]
      | first [ intros _; reflexivity
              | intros Hn; exfalso; apply Hn; reflexivity ] ] ].

Ltac run_failure H e :=
  run_bot H; repeat (step_bot H e; try (finish_failure H)); finish_failure H.

Lemma joinZoomMeeting_failure url pw name e b :
  join_failure_post e b (joinZoomMeeting url pw name e b).
Proof.
  unfold join_failure_post. destruct b as [ms n op cs ls lg ts].
  remember (joinZoomMeeting _ _ _ _ _) as o eqn:H.
  unfold joinZoomMeeting in H. destruct (truthy pw); run_failure H e.
Qed.

Lemma joinGoogleMeet_failure url name e b :
  join_failure_post e b (joinGoogleMeet url name e b).
Proof.
  unfold join_failure_post. destruct b as [ms n op cs ls lg ts].
  remember (joinGoogleMeet _ _ _ _) as o eqn:H.
  run_failure H e.
Qed.

Lemma joinTeamsMeeting_failure url name e b :
  join_failure_post e b (joinTeamsMeeting url name e b).
Proof.
  unfold join_failure_post. destruct b as [ms n op cs ls lg ts].
  remember (joinTeamsMeeting _ _ _ _) as o eqn:H.
  run_failure H e.
Qed.

Lemma join_meeting_failure r e b :
  supported (req_platform r) = true ->
  join_failure_post e b (join_meeting r e b).
Proof.
  unfold supported, join_meeting. cbv zeta.
  destruct (String.eqb _ "zoom"); [intros _; apply joinZoomMeeting_failure|].
  destruct (String.eqb _ "meet"); [intros _; apply joinGoogleMeet_failure|].
  destruct (String.eqb _ "google"); [intros _; apply joinGoogleMeet_failure|].
  destruct (String.eqb _ "teams"); [intros _; apply joinTeamsMeeting_failure|].
  destruct (String.eqb _ "microsoft"); [intros _; apply joinTeamsMeeting_failure|].
  discriminate.
Qed.

(** C2 (amended): a join never throws: it returns either success or a failure
    outcome; it closes no browser, so every browser open before is still open
    after.  When the join fails, the last call it made is the one that was
    rejected, and the failure carries the message of that rejection; unless
    that call is the launch itself, the browser the join launched is left
    open; and unless that call is the installation of the capture script,
    that is, whenever the failing step comes before the session is stored,
    the Registry is what it was before the join. *)
Theorem failed_join_outcome r e b :
  supported (req_platform r) = true ->
  ∃ res b',
    join_meeting r e b = (Ok res, b') ∧
    (∀ k, closes k (calls b') = closes k (calls b)) ∧
    open_browsers b ⊆ open_browsers b' ∧
    (success res = false ->
       ∃ ev msg rest,
         calls b' = ev :: rest ∧
         rejects e ev = Some msg ∧
         res = failed msg ∧
         ((∀ engine, ev ≠ Launch engine) ->
          launched b' = S (launched b) ∧ launched b ∈ open_browsers b') ∧
         (launched b' = S (launched b) -> launched b ∈ open_browsers b') ∧
         (ev ≠ Call (launched b) EvaluateOnNewDocument ->
          activeMeetings b' = activeMeetings b)).
Proof.
  intros Hs.
  destruct (join_meeting_post r e b Hs) as (res & b' & Heq & _ & Hcl & Hc).
  exists res, b'. split; [exact Heq|]. split; [exact Hcl|].
  assert (Hin : ∀ (h : nat) (s : gset nat), h ∈ ({[h]} ∪ s : gset nat))
    by (intros; apply elem_of_union_l, elem_of_singleton; reflexivity).
  assert (Hopen : open_browsers b ⊆ open_browsers b' ∧
                  (launched b' = S (launched b) -> launched b ∈ open_browsers b')).
  { destruct Hc as [b' Hm Hl Ho _ _
                   |msg b' _ Hm Hl Ho _ _
                   |msg b' _ Hm Hl Ho _ _
                   |msg b' Hr Hm Hl Ho _ _]; rewrite Ho.
    - split; [apply union_subseteq_r|auto].
    - split; [reflexivity|lia].
    - split; [apply union_subseteq_r|auto].
    - split; [apply union_subseteq_r|auto]. }
  destruct Hopen as [Hsub Hleft]. split; [exact Hsub|].
  intros Hfail.
  destruct (join_meeting_failure r e b Hs res b' Heq Hfail)
    as (ev & msg & rest & Hcalls & Hres & Hrej & Hlaunch & Hreg).
  exists ev, msg, rest. auto 10.
Qed.

Lemma failed_join_outcome_witness :
  ∃ res b',
    join_meeting zoom_request (goto_times_out 1) new_bot = (Ok res, b') ∧
    res = failed "Navigation timeout of 30000 ms exceeded" ∧
    0 ∈ open_browsers b' ∧
    activeMeetings b' = ∅.
Proof.
  destruct (failed_join_outcome zoom_request (goto_times_out 1) new_bot)
    as (res & b' & Heq & _ & _ & H); [reflexivity|].
  exists res, b'. split; [exact Heq|].
  assert (Hb : res = failed "Navigation timeout of 30000 ms exceeded" ∧
               calls b' = [Call 0 (Goto "https://zoom.us/wc/join/123456789");
                           Call 0 (OverridePermissions "https://zoom.us/j/123456789");
                           Call 0 NewPage; Launch "puppeteer"]).
  { vm_compute in Heq. injection Heq as <- <-. split; reflexivity. }
  destruct Hb as [-> Hcalls].
  destruct (H eq_refl) as (ev & msg & rest & Hev & _ & _ & Hopen & _ & Hreg).
  rewrite Hcalls in Hev. injection Hev as <- _.
  split; [reflexivity|]. split.
  - apply Hopen. discriminate.
  - apply Hreg. discriminate.
Defined.

(** ** Leaving *)





(** A second leave that starts while the first one waits for its close finds
    the session still registered and closes its browser again. *)
Example leave_interleaved_in_meeting :
  leave_interleaved "123456789" (all_succeed 2) (all_succeed 3) in_meeting
  = (Ok left_ok, Ok left_ok,
     (leave_interleaved "123456789" (all_succeed 2) (all_succeed 3) in_meeting).2) ∧
  closes 0 (calls (leave_interleaved "123456789" (all_succeed 2) (all_succeed 3)
                     in_meeting).2) = 2.
Proof. split; vm_compute; reflexivity. Qed.



(** A leave whose close fails returns a failure and keeps the entry. *)
Lemma leave_keeps_entry_counterexample :
  activeMeetings in_meeting !! "123456789" = Some (Meeting 0 0 "zoom" 1 "active") ∧
  (leave_meeting "123456789" (close_fails 2) in_meeting).1
    = Ok (failed "Protocol error: Connection closed") ∧
  activeMeetings (leave_meeting "123456789" (close_fails 2) in_meeting).2 !! "123456789"
    = Some (Meeting 0 0 "zoom" 1 "active") ∧
  ¬ leave_always_removes.
Proof.
  do 3 (split; [vm_compute; reflexivity|]).
  intros H.
  specialize (H "123456789" (Meeting 0 0 "zoom" 1 "active") (close_fails 2) in_meeting).
  vm_compute in H. specialize (H eq_refl). discriminate.
Qed.

(** C6 (amended): a leave on a registered session calls [close] on its
    browser once.  When the close succeeds the leave returns success and the
    entry is removed from the Registry; when the close fails the leave
    returns a failure with the error's message and the Registry is
    unchanged. *)
Theorem leave_removes_when_closed id m e b :
  activeMeetings b !! id = Some m ->
  ∃ res b',
    leave_meeting id e b = (Ok res, b') ∧
    calls b' = Call (browser m) Close :: calls b ∧
    match rejects e (Call (browser m) Close) with
    | None =>
        res = left_ok ∧
        activeMeetings b' = delete id (activeMeetings b) ∧
        activeMeetings b' !! id = None ∧
        open_browsers b' = open_browsers b ∖ {[browser m]}
    | Some msg =>
        res = failed msg ∧
        activeMeetings b' = activeMeetings b ∧
        open_browsers b' = open_browsers b
    end.
Proof.
  intros Hm. unfold leave_meeting.
  destruct (rejects e (Call (browser m) Close)) as [msg|] eqn:Hc.
  - rewrite (leaveMeeting_close_rejected id m msg e b Hm Hc).
    eexists _, _. split; [reflexivity|]. cbn. auto.
  - rewrite (leaveMeeting_closed id m e b Hm Hc).
    eexists _, _. split; [reflexivity|]. cbn.
    split; [reflexivity|]. split; [reflexivity|]. split; [reflexivity|].
    split; [apply lookup_delete_eq|reflexivity].
Qed.

Lemma leave_removes_when_closed_witness :
  ∃ b',
    leave_meeting "123456789" (all_succeed 2) in_meeting = (Ok left_ok, b') ∧
    activeMeetings b' !! "123456789" = None.
Proof.
  destruct (leave_removes_when_closed "123456789" (Meeting 0 0 "zoom" 1 "active")
              (all_succeed 2) in_meeting) as (res & b' & Heq & _ & H);
    [vm_compute; reflexivity|].
  cbn in H. destruct H as (-> & _ & Hgone & _).
  exists b'. split; [exact Heq|exact Hgone].
Defined.

(** ** Relaying audio *)

(** C7: when the call that forwards one audio chunk to the transcription
    endpoint fails, the failure is logged and goes no further: the call
    returns normally, the Registry, the open browsers and the console
    listeners are what they were, and the next chunk is forwarded as usual. *)
Theorem relay_failure_absorbed id d1 d2 e1 e2 b msg :
  rejects e1 (Post (Payload id d1 (now e1))) = Some msg ->
  ∃ b1 b2,
    sendToTranscription id d1 e1 b = (Ok tt, b1) ∧
    log b1 = Error "Error sending audio to transcription:" msg :: log b ∧
    activeMeetings b1 = activeMeetings b ∧
    open_browsers b1 = open_browsers b ∧
    listeners b1 = listeners b ∧
    (∀ k, closes k (calls b1) = closes k (calls b)) ∧
    sendToTranscription id d2 e2 b1 = (Ok tt, b2) ∧
    calls b2 = Post (Payload id d2 (now e2)) :: Post (Payload id d1 (now e1)) :: calls b ∧
    activeMeetings b2 = activeMeetings b ∧
    open_browsers b2 = open_browsers b ∧
    (rejects e2 (Post (Payload id d2 (now e2))) = None -> log b2 = log b1).
Proof.
  intros Hr. eexists _, _.
  split; [apply sendToTranscription_run|]. rewrite Hr.
  do 5 (split; [reflexivity|]).
  split; [apply sendToTranscription_run|].
  destruct (rejects e2 _); cbn; [|auto].
  do 3 (split; [reflexivity|]). discriminate.
Qed.

Lemma relay_failure_absorbed_witness :
  ∃ b1 b2,
    on_console "123456789" "log" "AUDIO_DATA 1" (post_fails 2) in_meeting = (Ok tt, b1) ∧
    on_console "123456789" "log" "AUDIO_DATA 2" (all_succeed 3) b1 = (Ok tt, b2) ∧
    activeMeetings b2 = activeMeetings in_meeting ∧
    calls b2 = Post (Payload "123456789" "AUDIO_DATA 2" 3)
               :: Post (Payload "123456789" "AUDIO_DATA 1" 2) :: calls in_meeting.
Proof.
  destruct (relay_failure_absorbed "123456789" "AUDIO_DATA 1" "AUDIO_DATA 2"
              (post_fails 2) (all_succeed 3) in_meeting "connect ECONNREFUSED")
    as (b1 & b2 & H1 & _ & _ & _ & _ & _ & H2 & Hc & Hm & _); [reflexivity|].
  exists b1, b2. split; [exact H1|]. split; [exact H2|]. split; [exact Hm|exact Hc].
Defined.

(** ** What every operation does to the Registry, the scheduler and the
       launch count *)

Lemma all_active_insert id m ms :
  status m = "active" -> all_active ms -> all_active (<[id := m]> ms).
Proof.
  intros Hm Hms id' m' Hl. destruct (decide (id = id')) as [->|Hne].
  - rewrite lookup_insert_eq in Hl. congruence.
  - rewrite lookup_insert_ne in Hl by exact Hne. eauto.
Qed.

Lemma all_active_delete id ms : all_active ms -> all_active (delete id ms).
Proof.
  intros Hms id' m' Hl. apply lookup_delete_Some in Hl as [_ Hl]. eauto.
Qed.

Lemma join_post_effect plat url e b o :
  join_post plat url e b o ->
  tasks o.2 = tasks b ∧
  launches (calls o.2) = S (launches (calls b)) ∧
  (all_active (activeMeetings b) -> all_active (activeMeetings o.2)).
Proof.
  intros (res & b' & -> & Ht & _ & Hc). cbn. split; [exact Ht|].
  destruct Hc as [b' Hm _ _ _ Hn|msg b' _ Hm _ _ _ Hn
                 |msg b' _ Hm _ _ _ Hn|msg b' _ Hm _ _ _ Hn];
    (split; [exact Hn|]); rewrite Hm; auto using all_active_insert.
Qed.

Lemma join_meeting_all_active r e b :
  all_active (activeMeetings b) -> all_active (activeMeetings (join_meeting r e b).2).
Proof.
  destruct (supported (req_platform r)) eqn:Hs.
  - apply (join_post_effect _ _ _ _ _ (join_meeting_post r e b Hs)).
  - rewrite (join_meeting_unsupported r e b Hs). auto.
Qed.

Lemma leaveMeeting_all_active id e b :
  all_active (activeMeetings b) -> all_active (activeMeetings (leaveMeeting id e b).2).
Proof.
  intros Hb. destruct (activeMeetings b !! id) as [m|] eqn:Hm.
  - destruct (rejects e (Call (browser m) Close)) as [msg|] eqn:Hc.
    + rewrite (leaveMeeting_close_rejected id m msg e b Hm Hc). exact Hb.
    + rewrite (leaveMeeting_closed id m e b Hm Hc). cbn.
      apply all_active_delete, Hb.
  - rewrite (leaveMeeting_absent id e b Hm). exact Hb.
Qed.

Lemma scheduled_callback_effect task e b :
  tasks (scheduled_callback task e b).2 = tasks b ∧
  launches (calls (scheduled_callback task e b).2)
    = (if callback_joins (task_platform task) then 1 else 0) + launches (calls b) ∧
  (all_active (activeMeetings b) ->
   all_active (activeMeetings (scheduled_callback task e b).2)).
Proof.
  unfold scheduled_callback, callback_joins. cbv zeta.
  unfold mbind, M_bind, logger_info, modify.
  set (b0 := record_log _ b).
  destruct (String.eqb _ "zoom").
  { destruct (joinZoomMeeting_post (task_meetingUrl task) (task_password task) None e b0)
      as (res & b' & Heq & Hp).
    pose proof (join_post_effect _ _ _ _ _ (ex_intro _ res (ex_intro _ b' (conj Heq Hp))))
      as H.
    rewrite Heq in H |- *. exact H. }
  destruct (String.eqb _ "meet").
  { destruct (joinGoogleMeet_post (task_meetingUrl task) None e b0)
      as (res & b' & Heq & Hp).
    pose proof (join_post_effect _ _ _ _ _ (ex_intro _ res (ex_intro _ b' (conj Heq Hp))))
      as H.
    rewrite Heq in H |- *. exact H. }
  destruct (String.eqb _ "teams").
  { destruct (joinTeamsMeeting_post (task_meetingUrl task) None e b0)
      as (res & b' & Heq & Hp).
    pose proof (join_post_effect _ _ _ _ _ (ex_intro _ res (ex_intro _ b' (conj Heq Hp))))
      as H.
    rewrite Heq in H |- *. exact H. }
  cbn. auto.
Qed.

Lemma run_due_effect ts : ∀ i t envs b,
  tasks (run_due ts i t envs b) = tasks b ∧
  launches (calls (run_due ts i t envs b)) = firing t ts + launches (calls b) ∧
  (all_active (activeMeetings b) -> all_active (activeMeetings (run_due ts i t envs b))).
Proof.
  induction ts as [|task ts IH]; intros i t envs b; cbn [run_due firing].
  - auto.
  - destruct (due (task_pattern task) t); cbn [andb].
    + destruct (scheduled_callback_effect task (envs i) b) as (Ht & Hn & Ha).
      destruct (IH (S i) t envs (scheduled_callback task (envs i) b).2)
        as (Ht' & Hn' & Ha').
      split; [congruence|]. split; [|auto]. rewrite Hn', Hn. lia.
    + apply IH.
Qed.

Lemma deliver_meetings ls : ∀ pg ty tx i envs b,
  activeMeetings (deliver ls pg ty tx i envs b) = activeMeetings b.
Proof.
  induction ls as [|[pg' id] ls IH]; intros pg ty tx i envs b; cbn [deliver].
  - reflexivity.
  - destruct (Nat.eqb pg pg'); [|apply IH].
    unfold on_console. destruct (_ && _).
    + rewrite sendToTranscription_run. cbn [snd].
      destruct (rejects _ _); cbn; apply IH.
    + apply IH.
Qed.

Lemma handle_all_active i envs b :
  all_active (activeMeetings b) -> all_active (activeMeetings (handle i envs b)).
Proof.
  destruct i as [r|id| |r|t|pg ty tx]; cbn [handle].
  - apply join_meeting_all_active.
  - apply leaveMeeting_all_active.
  - auto.
  - auto.
  - apply run_due_effect.
  - unfold console_message. rewrite deliver_meetings. auto.
Qed.

(** ** Scheduled joins *)

Lemma due_in_year y d : due (cronPattern d) (in_year y d) = true.
Proof.
  unfold due, cronPattern, in_year. cbn. rewrite !Z.eqb_refl. reflexivity.
Qed.

(** One schedule request, then the scheduled minute in 2025 and the same
    minute in 2026: the join is started both times, with two browsers, and
    the task is still registered. *)
Lemma scheduled_join_counterexample :
  tasks scheduled = [task_of zoom_schedule] ∧
  launches (calls scheduled) = 0 ∧
  launches (calls (cron_tick march_10_2025 (fun _ => all_succeed 1) scheduled)) = 1 ∧
  launches (calls (cron_tick march_10_2026 (fun _ => all_succeed 2)
                     (cron_tick march_10_2025 (fun _ => all_succeed 1) scheduled))) = 2 ∧
  tasks (cron_tick march_10_2026 (fun _ => all_succeed 2)
           (cron_tick march_10_2025 (fun _ => all_succeed 1) scheduled))
    = [task_of zoom_schedule] ∧
  ¬ scheduled_join_fires_once.
Proof.
  do 5 (split; [vm_compute; reflexivity|]).
  intros H.
  destruct (H zoom_schedule (all_succeed 0) new_bot march_10_2025 march_10_2026
              (fun _ => all_succeed 1) (fun _ => all_succeed 2)) as (Hle & _);
    [reflexivity | discriminate |].
  vm_compute in Hle. lia.
Qed.

(** C9 (amended): a schedule request registers one task and nothing ever
    removes it: after any minute the registered tasks are the same.  In each
    minute the task starts its join once if the minute, hour, day of month
    and month are those of the scheduled time and the platform is zoom, meet
    or teams, and not otherwise; the year is not compared, so the scheduled
    minute of every year is due. *)
Theorem scheduled_join_stays_registered r e b t envs :
  tasks (schedule_bot r e b).2 = (tasks b ++ [task_of r])%list ∧
  tasks (cron_tick t envs (schedule_bot r e b).2) = tasks (schedule_bot r e b).2 ∧
  launches (calls (cron_tick t envs (schedule_bot r e b).2))
    = firing t (tasks b ++ [task_of r])%list + launches (calls b) ∧
  firing t [task_of r]
    = (if due (cronPattern (sched_cronTime r)) t && callback_joins (sched_platform r)
       then 1 else 0) ∧
  (∀ y, due (cronPattern (sched_cronTime r)) (in_year y (sched_cronTime r)) = true).
Proof.
  split; [reflexivity|]. unfold cron_tick.
  destruct (run_due_effect (tasks (schedule_bot r e b).2) 0 t envs (schedule_bot r e b).2)
    as (Ht & Hn & _).
  split; [exact Ht|]. split; [exact Hn|]. split.
  - cbn. destruct (_ && _); reflexivity.
  - intros y. apply due_in_year.
Qed.

(** ** The status of registered sessions *)

Lemma reachable_all_active b : reachable b -> all_active (activeMeetings b).
Proof.
  induction 1 as [|b i envs _ IH].
  - intros id m Hl. cbn in Hl. rewrite lookup_empty in Hl. discriminate.
  - apply handle_all_active, IH.
Qed.

(** C10: in every state the service can reach, every session in the Registry
    has status [active], and so has every element of the list of active
    meetings. *)
Theorem registered_sessions_active b :
  reachable b ->
  (∀ id m, activeMeetings b !! id = Some m -> status m = "active") ∧
  Forall (fun s => s_status s = "active") (active_meetings b).
Proof.
  intros Hb. pose proof (reachable_all_active b Hb) as Ha.
  split; [exact Ha|].
  unfold active_meetings. rewrite Forall_fmap. apply Forall_forall.
  intros [id m] Hin. cbn. apply (Ha id m).
  apply elem_of_map_to_list. exact Hin.
Qed.

Lemma registered_sessions_active_witness :
  Forall (fun s => s_status s = "active")
    (active_meetings
       (handle (LeaveMeeting "abc-defg-hij") (fun _ => close_fails 3)
          (handle (JoinMeeting (JoinRequest "Google" "https://meet.google.com/abc-defg-hij"
                                  None (Some "Notes")))
             (fun _ => capture_fails 2)
             (handle (JoinMeeting zoom_request) (fun _ => all_succeed 1) new_bot)))).
Proof.
  apply registered_sessions_active.
  do 3 apply reachable_handle. apply reachable_new.
Defined.

(** * Further properties of the meeting bot *)

(** ** Regular expressions and string replacement *)

Lemma append_cons c (a b : string) : String c a ++ b = String c (a ++ b).
Proof. reflexivity. Qed.

Lemma append_nil (a : string) : "" ++ a = a.
Proof. reflexivity. Qed.

Lemma strip_prefix_app p s rest :
  Str.strip_prefix p s = Some rest -> s = p ++ rest.
Proof.
  revert s. induction p as [|a p IH]; intros s H.
  - cbn in H. injection H as ->. reflexivity.
  - destruct s as [|c s]; [discriminate|]. cbn in H.
    destruct (Ascii.eqb a c) eqn:Hac; [|discriminate].
    apply Ascii.eqb_eq in Hac as ->. rewrite append_cons. f_equal. exact (IH s H).
Qed.

Lemma take_while_split f s :
  ∃ post, s = Str.take_while f s ++ post ∧
          Str.Forall_chars f (Str.take_while f s) = true ∧
          match post with
          | EmptyString => True
          | String c _ => f c = false
          end.
Proof.
  induction s as [|c s (post & Hs & Hall & Hpost)]; cbn.
  - exists "". auto.
  - destruct (f c) eqn:Hc.
    + exists post. rewrite append_cons. cbn. rewrite Hc.
      split; [f_equal; exact Hs|auto].
    + exists (String c s). rewrite append_nil. cbn. auto.
Qed.

Lemma string_app_assoc (a b c : string) : (a ++ b) ++ c = a ++ (b ++ c).
Proof.
  induction a as [|x a IH]; [reflexivity|].
  rewrite !append_cons. f_equal. exact IH.
Qed.

(** X1: when a pattern [/literal(class+)/] matches a text, the group it
    returns is not empty, consists of characters of the class only, and
    stands in the text right after the literal; it is the whole run: the
    character after it, if any, is not of the class. *)
Theorem match_group_sound r s g :
  Str.match_group r s = Some g ->
  g ≠ "" ∧
  Str.Forall_chars (Str.class r) g = true ∧
  ∃ pre post,
    s = pre ++ Str.literal r ++ g ++ post ∧
    match post with
    | EmptyString => True
    | String c _ => Str.class r c = false
    end.
Proof.
  induction s as [|c s IH]; cbn [Str.match_group].
  - destruct (Str.match_here r "") as [g'|] eqn:Hh; [|discriminate].
    intros [= ->]. unfold Str.match_here in Hh.
    destruct (Str.strip_prefix _ _) as [rest|] eqn:Hp; [|discriminate].
    destruct (Str.take_while _ rest) as [|c0 g0] eqn:Ht; [discriminate|].
    injection Hh as <-. apply strip_prefix_app in Hp.
    destruct (take_while_split (Str.class r) rest) as (post & Hs & Hall & Hpost).
    rewrite Ht in Hs, Hall. split; [discriminate|]. split; [exact Hall|].
    exists "", post. rewrite append_nil. split; [congruence|exact Hpost].
  - destruct (Str.match_here r (String c s)) as [g'|] eqn:Hh.
    + intros [= ->]. unfold Str.match_here in Hh.
      destruct (Str.strip_prefix _ _) as [rest|] eqn:Hp; [|discriminate].
      destruct (Str.take_while _ rest) as [|c0 g0] eqn:Ht; [discriminate|].
      injection Hh as <-. apply strip_prefix_app in Hp.
      destruct (take_while_split (Str.class r) rest) as (post & Hs & Hall & Hpost).
      rewrite Ht in Hs, Hall. split; [discriminate|]. split; [exact Hall|].
      exists "", post. rewrite append_nil. split; [congruence|exact Hpost].
    + intros Hg. destruct (IH Hg) as (Hne & Hall & pre & post & Hs & Hpost).
      split; [exact Hne|]. split; [exact Hall|].
      exists (String c pre), post. rewrite append_cons.
      split; [f_equal; exact Hs|exact Hpost].
Qed.

Lemma match_group_sound_witness :
  "123456789" ≠ "" ∧ Str.Forall_chars Str.is_digit "123456789" = true.
Proof.
  destruct (match_group_sound zoom_pattern "https://zoom.us/j/123456789?pwd=abc" "123456789")
    as (H1 & H2 & _); [reflexivity|].
  exact (conj H1 H2).
Defined.

(** Replacing a text that does not occur changes nothing. *)
Lemma replace_absent p r s :
  Str.includes p s = false -> Str.replace p r s = s.
Proof.
  induction s as [|c s IH]; cbn.
  - destruct (Str.strip_prefix p ""); [discriminate|reflexivity].
  - destruct (Str.strip_prefix p (String c s)); [discriminate|].
    intros H. f_equal. auto.
Qed.

Ltac find_call :=
  repeat first [apply list_elem_of_here | apply list_elem_of_further].

Ltac only_goto Hin :=
  repeat (apply elem_of_cons in Hin as [Hin|Hin];
          [first [discriminate Hin | injection Hin as -> ->; left; split; reflexivity]|]);
  right; exact Hin.

(** X2: a Zoom link that does not contain [zoom.us/j/] is not rewritten to a
    link of the web client: once the browser, its page and its permissions
    are there, the join navigates to the link exactly as it was given, and
    to nothing else. *)
Theorem zoom_link_opened_as_given url pw name e b :
  Str.includes "zoom.us/j/" url = false ->
  rejects e (Launch "puppeteer") = None ->
  rejects e (Call (launched b) NewPage) = None ->
  rejects e (Call (launched b) (OverridePermissions url)) = None ->
  Str.replace "zoom.us/j/" "zoom.us/wc/join/" url = url ∧
  Call (launched b) (Goto url) ∈ calls (joinZoomMeeting url pw name e b).2 ∧
  ∀ h u, Call h (Goto u) ∈ calls (joinZoomMeeting url pw name e b).2 ->
         (h = launched b ∧ u = url) ∨ Call h (Goto u) ∈ calls b.
Proof.
  intros Habs HL HP HO. split; [apply replace_absent, Habs|].
  destruct b as [ms n op cs ls lg ts]. cbn [launched calls] in *.
  remember (joinZoomMeeting _ _ _ _ _) as o eqn:H.
  unfold joinZoomMeeting in H.
  rewrite (replace_absent _ _ _ Habs) in H.
  destruct (truthy pw); run_bot H; rewrite ?HL, ?HP, ?HO in H;
    cbv beta iota zeta in H; rewrite ?HP, ?HO in H; cbv beta iota zeta in H;
    rewrite ?HO in H; cbv beta iota zeta in H;
    repeat (step_bot H e);
    rewrite H; cbn [snd]; (split; [find_call|intros h u Hin; only_goto Hin]).
Qed.

Lemma zoom_link_opened_as_given_witness :
  Call 0 (Goto "https://zoom.us/my/room")
  ∈ calls (joinZoomMeeting "https://zoom.us/my/room" None None (all_succeed 1) new_bot).2.
Proof.
  destruct (zoom_link_opened_as_given "https://zoom.us/my/room" None None
              (all_succeed 1) new_bot) as (_ & H & _); try reflexivity.
  exact H.
Defined.

Lemma join_all_succeed r e b :
  supported (req_platform r) = true ->
  (∀ ev, rejects e ev = None) ->
  ∃ b',
    join_meeting r e b = (Ok (joined (extractMeetingId (req_meetingUrl r))), b') ∧
    activeMeetings b' =
      <[extractMeetingId (req_meetingUrl r) :=
          Meeting (launched b) (launched b) (platform_tag (req_platform r)) (now e) "active"]>
        (activeMeetings b) ∧
    open_browsers b' = {[launched b]} ∪ open_browsers b.
Proof.
  intros Hs Hall.
  destruct (join_meeting_post r e b Hs) as (res & b' & Heq & _ & _ & Hc).
  destruct (join_case_succeeds _ _ _ _ _ _ Hall Hc) as (-> & Hm & _ & Ho & _).
  exists b'. auto.
Qed.

(** ** Joining and leaving *)



(** X4: a leave touches one session only: every other identifier keeps its
    entry, and no browser other than the one of the session that is left is
    closed or removed from the open browsers. *)
Theorem leave_frame id e b :
  (∀ id', id' ≠ id ->
     activeMeetings (leave_meeting id e b).2 !! id' = activeMeetings b !! id') ∧
  (∀ h, (∀ m, activeMeetings b !! id = Some m -> browser m ≠ h) ->
     closes h (calls (leave_meeting id e b).2) = closes h (calls b) ∧
     (h ∈ open_browsers (leave_meeting id e b).2 ↔ h ∈ open_browsers b)) ∧
  launched (leave_meeting id e b).2 = launched b ∧
  tasks (leave_meeting id e b).2 = tasks b.
Proof.
  unfold leave_meeting. destruct (activeMeetings b !! id) as [m|] eqn:Hm.
  - destruct (rejects e (Call (browser m) Close)) as [msg|] eqn:Hc.
    + rewrite (leaveMeeting_close_rejected id m msg e b Hm Hc). cbn.
      split; [reflexivity|]. split; [|auto].
      intros h Hh. specialize (Hh m eq_refl).
      destruct (Nat.eqb_spec h (browser m)); [congruence|]. split; reflexivity.
    + rewrite (leaveMeeting_closed id m e b Hm Hc). cbn.
      split; [intros id' Hne; apply lookup_delete_ne; congruence|].
      split; [|auto].
      intros h Hh. specialize (Hh m eq_refl).
      destruct (Nat.eqb_spec h (browser m)); [congruence|].
      split; [reflexivity|].
      rewrite elem_of_difference, elem_of_singleton. intuition congruence.
  - rewrite (leaveMeeting_absent id e b Hm). split; [reflexivity|].
    split; [|auto]. intros h _. split; reflexivity.
Qed.

(** X5: a successful join under a free identifier followed by a leave whose
    close succeeds gives back the Registry and the open browsers of before. *)
Theorem join_then_leave_restores r e1 e2 b :
  supported (req_platform r) = true ->
  (∀ ev, rejects e1 ev = None) ->
  rejects e2 (Call (launched b) Close) = None ->
  activeMeetings b !! extractMeetingId (req_meetingUrl r) = None ->
  launched b ∉ open_browsers b ->
  (leave_meeting (extractMeetingId (req_meetingUrl r)) e2 (join_meeting r e1 b).2).1
    = Ok left_ok ∧
  activeMeetings
    (leave_meeting (extractMeetingId (req_meetingUrl r)) e2 (join_meeting r e1 b).2).2
    = activeMeetings b ∧
  open_browsers
    (leave_meeting (extractMeetingId (req_meetingUrl r)) e2 (join_meeting r e1 b).2).2
    = open_browsers b.
Proof.
  intros Hs Hall Hc Hfree Hfresh.
  destruct (join_all_succeed r e1 b Hs Hall) as (b' & Heq & Hm & Ho).
  rewrite Heq. cbn [snd]. unfold leave_meeting.
  assert (Hl : activeMeetings b' !! extractMeetingId (req_meetingUrl r)
               = Some (Meeting (launched b) (launched b)
                               (platform_tag (req_platform r)) (now e1) "active"))
    by (rewrite Hm; apply lookup_insert_eq).
  rewrite (leaveMeeting_closed _ _ e2 b' Hl Hc). cbn.
  split; [reflexivity|]. rewrite Hm, Ho. split.
  - rewrite delete_insert_eq. apply delete_id. exact Hfree.
  - apply set_eq. intros h.
    rewrite elem_of_difference, elem_of_union, elem_of_singleton.
    split; [intuition|]. intros Hh. split; [auto|]. intros ->. auto.
Qed.

Lemma leave_frame_witness :
  activeMeetings (leave_meeting "other" (all_succeed 2) in_meeting).2 !! "123456789"
    = Some (Meeting 0 0 "zoom" 1 "active") ∧
  closes 0 (calls (leave_meeting "other" (all_succeed 2) in_meeting).2) = 0.
Proof.
  destruct (leave_frame "other" (all_succeed 2) in_meeting) as (H1 & H2 & _).
  split.
  - rewrite H1 by discriminate. vm_compute. reflexivity.
  - destruct (H2 0) as (Hc & _).
    + intros m Hm. vm_compute in Hm. discriminate.
    + rewrite Hc. vm_compute. reflexivity.
Defined.

Lemma join_then_leave_restores_witness :
  activeMeetings (leave_meeting "123456789" (all_succeed 2) in_meeting).2 = ∅ ∧
  open_browsers (leave_meeting "123456789" (all_succeed 2) in_meeting).2 = ∅.
Proof.
  destruct (join_then_leave_restores zoom_request (all_succeed 1) (all_succeed 2) new_bot)
    as (_ & H1 & H2).
  - reflexivity.
  - intros ev. reflexivity.
  - reflexivity.
  - reflexivity.
  - apply not_elem_of_empty.
  - exact (conj H1 H2).
Defined.

(** ** The list of active meetings *)

(** X6: the list of active meetings has one element per registered session
    and nothing else: an element is in the list exactly when the Registry
    holds a session under its identifier with its platform, start time and
    status; the list is as long as the Registry is large. *)
Theorem active_meetings_exact b :
  (∀ s, s ∈ active_meetings b ↔
        ∃ m, activeMeetings b !! s_id s = Some m ∧
             s = Summary (s_id s) (platform m) (startTime m) (status m)) ∧
  length (active_meetings b) = size (activeMeetings b).
Proof.
  split.
  - intros s. unfold active_meetings. rewrite list_elem_of_fmap. split.
    + intros ([id m] & -> & Hin). apply elem_of_map_to_list in Hin.
      exists m. split; [exact Hin|reflexivity].
    + intros (m & Hm & Hs). exists (s_id s, m).
      split; [exact Hs|]. apply elem_of_map_to_list. exact Hm.
  - unfold active_meetings. rewrite length_fmap. apply length_map_to_list.
Qed.

(** ** Browsers and sessions *)

Lemma join_case_well_owned plat url e b r b' :
  join_case plat url e b r b' -> well_owned b -> well_owned b'.
Proof.
  intros Hc (Hopen & Hown & Hinj).
  assert (Hnew : ∀ id m, activeMeetings b !! id = Some m -> browser m ≠ launched b).
  { intros id m Hm Heq. destruct (Hown id m Hm) as [Hin _].
    apply Hopen in Hin. lia. }
  assert (Hins : well_owned
            (Bot (<[extractMeetingId url :=
                      Meeting (launched b) (launched b) plat (now e) "active"]>
                    (activeMeetings b))
                 (S (launched b)) ({[launched b]} ∪ open_browsers b)
                 [] [] [] [])).
  { split; [|split]; cbn [activeMeetings launched open_browsers].
    - intros h Hh. apply elem_of_union in Hh as [Hh|Hh].
      + apply elem_of_singleton in Hh. lia.
      + apply Hopen in Hh. lia.
    - intros id m Hm. destruct (decide (extractMeetingId url = id)) as [<-|Hne].
      + rewrite lookup_insert_eq in Hm. injection Hm as <-. cbn [browser page].
        split; [|reflexivity]. apply elem_of_union_l, elem_of_singleton. reflexivity.
      + rewrite lookup_insert_ne in Hm by exact Hne.
        destruct (Hown id m Hm). split; [apply elem_of_union_r|]; auto.
    - intros id1 id2 m1 m2 H1 H2 Hb.
      destruct (decide (extractMeetingId url = id1)) as [<-|Hne1];
        destruct (decide (extractMeetingId url = id2)) as [<-|Hne2]; [reflexivity| | |].
      + rewrite lookup_insert_eq in H1. rewrite lookup_insert_ne in H2 by exact Hne2.
        injection H1 as <-. cbn [browser] in Hb. symmetry in Hb. destruct (Hnew _ _ H2 Hb).
      + rewrite lookup_insert_eq in H2. rewrite lookup_insert_ne in H1 by exact Hne1.
        injection H2 as <-. cbn [browser] in Hb. destruct (Hnew _ _ H1 Hb).
      + rewrite lookup_insert_ne in H1 by exact Hne1.
        rewrite lookup_insert_ne in H2 by exact Hne2. eauto. }
  destruct Hins as (Hopen' & Hown' & Hinj'). cbn [activeMeetings launched open_browsers] in Hopen', Hown', Hinj'.
  destruct Hc as [b' Hm Hl Ho _ _|msg b' _ Hm Hl Ho _ _
                 |msg b' _ Hm Hl Ho _ _|msg b' _ Hm Hl Ho _ _];
    unfold well_owned; rewrite Hm, Hl, Ho.
  - auto.
  - auto.
  - split; [exact Hopen'|]. split; [|exact Hinj].
    intros id m Hid. destruct (Hown id m Hid).
    split; [apply elem_of_union_r|]; auto.
  - auto.
Qed.

Lemma join_post_well_owned plat url e b o :
  join_post plat url e b o -> well_owned b -> well_owned o.2.
Proof.
  intros (res & b' & -> & _ & _ & Hc). apply (join_case_well_owned _ _ _ _ _ _ Hc).
Qed.

Lemma leaveMeeting_well_owned id e b :
  well_owned b -> well_owned (leaveMeeting id e b).2.
Proof.
  intros Hb. destruct (activeMeetings b !! id) as [m|] eqn:Hm.
  - destruct (rejects e (Call (browser m) Close)) as [msg|] eqn:Hc.
    + rewrite (leaveMeeting_close_rejected id m msg e b Hm Hc). exact Hb.
    + rewrite (leaveMeeting_closed id m e b Hm Hc).
      destruct Hb as (Hopen & Hown & Hinj). split; [|split]; cbn.
      * intros h Hh. apply elem_of_difference in Hh as [Hh _]. auto.
      * intros id' m' Hm'. apply lookup_delete_Some in Hm' as [Hne Hm'].
        destruct (Hown id' m' Hm') as [Hin Hpg]. split; [|exact Hpg].
        apply elem_of_difference. split; [exact Hin|].
        rewrite elem_of_singleton. intros Hb.
        apply Hne. symmetry. exact (Hinj id' id m' m Hm' Hm Hb).
      * intros id1 id2 m1 m2 H1 H2.
        apply lookup_delete_Some in H1 as [_ H1].
        apply lookup_delete_Some in H2 as [_ H2]. eauto.
  - rewrite (leaveMeeting_absent id e b Hm). exact Hb.
Qed.

(** The callback of a task either only writes its log line or runs one of
    the three joins after it. *)
Lemma scheduled_callback_cases task e b :
  let b0 := record_log (Info ("Scheduled bot joining meeting at " ++ task_scheduledTime task)) b in
  (callback_joins (task_platform task) = false ∧
   scheduled_callback task e b = (Ok tt, b0)) ∨
  (callback_joins (task_platform task) = true ∧
   ∃ plat res b',
     join_post plat (task_meetingUrl task) e b0 (Ok res, b') ∧
     scheduled_callback task e b = (Ok tt, b')).
Proof.
  unfold scheduled_callback, callback_joins. cbv zeta.
  unfold mbind, M_bind, logger_info, modify.
  set (b0 := record_log _ b).
  destruct (String.eqb _ "zoom").
  { right. split; [reflexivity|].
    pose proof (joinZoomMeeting_post (task_meetingUrl task) (task_password task) None e b0) as Hp.
    destruct Hp as (res & b' & Heq & Hp). exists "zoom", res, b'.
    split; [exists res, b'; auto|]. rewrite Heq. reflexivity. }
  destruct (String.eqb _ "meet").
  { right. split; [reflexivity|].
    pose proof (joinGoogleMeet_post (task_meetingUrl task) None e b0) as Hp.
    destruct Hp as (res & b' & Heq & Hp). exists "meet", res, b'.
    split; [exists res, b'; auto|]. rewrite Heq. reflexivity. }
  destruct (String.eqb _ "teams").
  { right. split; [reflexivity|].
    pose proof (joinTeamsMeeting_post (task_meetingUrl task) None e b0) as Hp.
    destruct Hp as (res & b' & Heq & Hp). exists "teams", res, b'.
    split; [exists res, b'; auto|]. rewrite Heq. reflexivity. }
  left. split; reflexivity.
Qed.

Lemma run_due_preserves (P : bot -> Prop) :
  (∀ task e b, P b -> P (scheduled_callback task e b).2) ->
  ∀ ts i t envs b, P b -> P (run_due ts i t envs b).
Proof.
  intros Hcb. induction ts as [|task ts IH]; intros i t envs b Hb; cbn [run_due].
  - exact Hb.
  - apply IH. destruct (due _ _); auto.
Qed.

Lemma deliver_preserves (P : bot -> Prop) :
  (∀ id ty tx e b, P b -> P (on_console id ty tx e b).2) ->
  ∀ ls pg ty tx i envs b, P b -> P (deliver ls pg ty tx i envs b).
Proof.
  intros Hc. induction ls as [|[pg' id] ls IH]; intros pg ty tx i envs b Hb;
    cbn [deliver].
  - exact Hb.
  - destruct (Nat.eqb pg pg'); auto.
Qed.

Lemma on_console_state id ty tx e b :
  ∃ evs ls, (on_console id ty tx e b).2
            = Bot (activeMeetings b) (launched b) (open_browsers b)
                  (evs ++ calls b) (listeners b) (ls ++ log b) (tasks b) ∧
            Forall (fun ev => ∃ p, ev = Post p) evs.
Proof.
  unfold on_console. destruct (_ && _).
  - rewrite sendToTranscription_run. cbn [snd].
    destruct (rejects e _).
    + eexists [_], [_]. split; [reflexivity|]. repeat constructor. eauto.
    + eexists [_], []. split; [reflexivity|]. repeat constructor. eauto.
  - exists [], []. destruct b. split; [reflexivity|constructor].
Qed.

Lemma scheduled_callback_well_owned task e b :
  well_owned b -> well_owned (scheduled_callback task e b).2.
Proof.
  intros Hb. destruct (scheduled_callback_cases task e b)
    as [[_ ->]|(_ & plat & res & b' & Hp & ->)].
  - exact Hb.
  - apply (join_post_well_owned _ _ _ _ _ Hp). exact Hb.
Qed.

Lemma on_console_well_owned id ty tx e b :
  well_owned b -> well_owned (on_console id ty tx e b).2.
Proof.
  intros Hb. destruct (on_console_state id ty tx e b) as (evs & ls & -> & _).
  exact Hb.
Qed.

(** X7: in every state the service can reach, each registered session holds
    a browser that was launched and is still open, together with its page,
    and no two sessions hold the same browser. *)
Theorem reachable_well_owned b :
  reachable b -> well_owned b.
Proof.
  induction 1 as [|b i envs _ IH].
  - split; [|split]; cbn.
    + intros h Hh. apply not_elem_of_empty in Hh. destruct Hh.
    + intros id m Hm. rewrite lookup_empty in Hm. discriminate.
    + intros id1 id2 m1 m2 Hm. rewrite lookup_empty in Hm. discriminate.
  - destruct i as [r|id| |r|t|pg ty tx]; cbn [handle].
    + destruct (supported (req_platform r)) eqn:Hs.
      * apply (join_post_well_owned _ _ _ _ _ (join_meeting_post r (envs 0) b Hs) IH).
      * rewrite (join_meeting_unsupported r (envs 0) b Hs). exact IH.
    + apply leaveMeeting_well_owned, IH.
    + exact IH.
    + exact IH.
    + unfold cron_tick.
      apply run_due_preserves; [apply scheduled_callback_well_owned|exact IH].
    + unfold console_message.
      apply deliver_preserves; [apply on_console_well_owned|exact IH].
Qed.

Lemma reachable_well_owned_witness :
  0 ∈ open_browsers in_meeting.
Proof.
  destruct (reachable_well_owned in_meeting) as (_ & Hown & _).
  - apply (reachable_handle new_bot (JoinMeeting zoom_request) (fun _ => all_succeed 1)).
    apply reachable_new.
  - apply (Hown "123456789" (Meeting 0 0 "zoom" 1 "active")).
    vm_compute. reflexivity.
Defined.

(** X8: no input other than a leave request closes a browser: joins, whether
    they succeed or fail, the scheduler and the audio relay never call
    [close]. *)
Theorem only_leave_closes i envs b k :
  is_leave i = false ->
  closes k (calls (handle i envs b)) = closes k (calls b).
Proof.
  intros Hi. destruct i as [r|id| |r|t|pg ty tx]; cbn [handle]; try discriminate.
  - destruct (supported (req_platform r)) eqn:Hs.
    + destruct (join_meeting_post r (envs 0) b Hs) as (res & b' & -> & _ & Hcl & _).
      apply Hcl.
    + rewrite (join_meeting_unsupported r (envs 0) b Hs). reflexivity.
  - reflexivity.
  - reflexivity.
  - unfold cron_tick.
    apply (run_due_preserves (fun b' => closes k (calls b') = closes k (calls b)));
      [|reflexivity].
    intros task e b1 Hb1.
    destruct (scheduled_callback_cases task e b1)
      as [[_ ->]|(_ & plat & res & b' & Hp & ->)].
    + exact Hb1.
    + destruct Hp as (res0 & b0 & [= <- <-] & _ & Hcl & _).
      rewrite Hcl. exact Hb1.
  - unfold console_message.
    apply (deliver_preserves (fun b' => closes k (calls b') = closes k (calls b)));
      [|reflexivity].
    intros id ty' tx' e b1 Hb1.
    destruct (on_console_state id ty' tx' e b1) as (evs & ls & -> & Hevs).
    cbn [calls]. rewrite <- Hb1. clear Hb1.
    induction Hevs as [|ev evs (p & ->) _ IH]; [reflexivity|exact IH].
Qed.

Lemma only_leave_closes_witness :
  closes 0 (calls (handle (JoinMeeting zoom_request) (fun _ => goto_times_out 2) in_meeting))
  = 0.
Proof.
  rewrite (only_leave_closes (JoinMeeting zoom_request) (fun _ => goto_times_out 2)
             in_meeting 0) by reflexivity.
  vm_compute. reflexivity.
Defined.

(** ** Scheduling *)




(** ** The audio relay *)

(** X10: a console message is relayed only if its type is [log], its text
    contains [AUDIO_DATA] and its page has a listener; any other message
    leaves the state of the bot unchanged. *)
Theorem console_message_filtered pg ty tx envs b :
  String.eqb ty "log" && Str.includes "AUDIO_DATA" tx = false ∨
  (∀ id, (pg, id) ∉ listeners b) ->
  console_message pg ty tx envs b = b.
Proof.
  unfold console_message. generalize 0.
  assert (H : ∀ ls n,
             String.eqb ty "log" && Str.includes "AUDIO_DATA" tx = false ∨
             (∀ id, (pg, id) ∉ ls) ->
             deliver ls pg ty tx n envs b = b).
  { induction ls as [|[pg' id] ls IH]; intros n Hc; cbn [deliver]; [reflexivity|].
    rewrite IH.
    - destruct (Nat.eqb_spec pg pg') as [->|Hne]; [|reflexivity].
      destruct Hc as [Hc|Hc].
      + unfold on_console. rewrite Hc. reflexivity.
      + destruct (Hc id). apply list_elem_of_here.
    - destruct Hc as [Hc|Hc]; [left; exact Hc|right].
      intros id' Hin. apply (Hc id'). apply list_elem_of_further. exact Hin. }
  intros n Hc. apply H. exact Hc.
Qed.

Lemma console_message_filtered_witness :
  console_message 0 "warning" "AUDIO_DATA 1" (fun _ => all_succeed 2) in_meeting = in_meeting ∧
  console_message 7 "log" "AUDIO_DATA 1" (fun _ => all_succeed 2) in_meeting = in_meeting.
Proof.
  split.
  - apply console_message_filtered. left. reflexivity.
  - apply console_message_filtered. right. intros id Hin.
    vm_compute in Hin. apply list_elem_of_singleton in Hin. discriminate.
Defined.

(** ** Platform names *)

Lemma lower_char_idempotent c : Str.lower_char (Str.lower_char c) = Str.lower_char c.
Proof. destruct c as [[] [] [] [] [] [] [] []]; reflexivity. Qed.

Lemma toLowerCase_idempotent s :
  Str.toLowerCase (Str.toLowerCase s) = Str.toLowerCase s.
Proof.
  induction s as [|c s IH]; cbn; [reflexivity|].
  rewrite lower_char_idempotent, IH. reflexivity.
Qed.

(** X11: the join handler reads the platform name without regard to letter
    case: a request and the same request with its platform in lower case get
    the same answer and leave the same state. *)
Theorem join_platform_case_insensitive r e b :
  join_meeting (lower_platform r) e b = join_meeting r e b ∧
  supported (req_platform (lower_platform r)) = supported (req_platform r).
Proof.
  unfold join_meeting, supported, lower_platform. cbn [req_platform req_meetingUrl
    req_password req_botName]. cbv zeta.
  rewrite toLowerCase_idempotent. split; reflexivity.
Qed.

(** ** Occurrences in a text *)

Lemma string_app_nil_r (a : string) : a ++ "" = a.
Proof.
  induction a as [|c a IH]; [reflexivity|]. rewrite append_cons, IH. reflexivity.
Qed.

Lemma strip_prefix_append p rest : Str.strip_prefix p (p ++ rest) = Some rest.
Proof.
  induction p as [|c p IH]; [reflexivity|].
  rewrite append_cons. cbn. rewrite Ascii.eqb_refl. exact IH.
Qed.

Lemma includes_app p pre post : Str.includes p (pre ++ p ++ post) = true.
Proof.
  induction pre as [|c pre IH].
  - rewrite append_nil. destruct (p ++ post) as [|c s] eqn:Hs.
    + cbn. rewrite <- Hs, strip_prefix_append. reflexivity.
    + cbn [Str.includes]. rewrite <- Hs, strip_prefix_append. reflexivity.
  - rewrite append_cons. cbn [Str.includes].
    destruct (Str.strip_prefix p _); [reflexivity|exact IH].
Qed.

Lemma includes_prefix p post : Str.includes p (p ++ post) = true.
Proof. rewrite <- (append_nil (p ++ post)). apply includes_app. Qed.

Lemma includes_suffix p pre : Str.includes p (pre ++ p) = true.
Proof.
  rewrite <- (string_app_nil_r p) at 2. apply includes_app.
Qed.

Lemma includes_refl p : Str.includes p p = true.
Proof. rewrite <- (string_app_nil_r p) at 2. apply includes_prefix. Qed.

Lemma includes_inv p s :
  Str.includes p s = true -> ∃ pre post, s = pre ++ p ++ post.
Proof.
  induction s as [|c s IH]; cbn [Str.includes].
  - destruct (Str.strip_prefix p "") as [rest|] eqn:Hp; [|discriminate].
    intros _. exists "", rest. rewrite append_nil. apply strip_prefix_app, Hp.
  - destruct (Str.strip_prefix p (String c s)) as [rest|] eqn:Hp.
    + intros _. exists "", rest. rewrite append_nil. apply strip_prefix_app, Hp.
    + intros H. destruct (IH H) as (pre & post & ->).
      exists (String c pre), post. reflexivity.
Qed.

Lemma includes_trans p q s :
  Str.includes p q = true -> Str.includes q s = true -> Str.includes p s = true.
Proof.
  intros Hp Hq. apply includes_inv in Hp as (a1 & b1 & ->).
  apply includes_inv in Hq as (a2 & b2 & ->).
  rewrite !string_app_assoc, <- (string_app_assoc a2 a1).
  apply includes_app.
Qed.

(** * Properties of the audio service *)

Section AudioFacts.

Context {number : Type}.
Implicit Types (a : Audio.service (number := number)) (e : Audio.env (number := number)).
Implicit Types (w : Audio.word (number := number)) (words ws : list (Audio.word (number := number))).
Implicit Types (acc : gmap Z (list (Audio.spoken (number := number)))).
Implicit Types (sess : Audio.session (number := number)).

(** ** [extractSpeakers] *)

Lemma add_word_lookup acc w k :
  Audio.add_word acc w !! k =
    match Audio.words_of k [w] with
    | [] => acc !! k
    | _ => Some (default [] (acc !! k) ++ [Audio.to_spoken w])%list
    end.
Proof.
  unfold Audio.add_word, Audio.words_of. cbn [List.filter].
  destruct (Audio.w_speaker w) as [k'|]; [|reflexivity].
  destruct (Z.eqb_spec k k') as [<-|Hne].
  - rewrite lookup_alter_eq. destruct (acc !! k) as [l|] eqn:Hk.
    + rewrite Hk. reflexivity.
    + rewrite lookup_insert_eq. reflexivity.
  - rewrite lookup_alter_ne by congruence.
    destruct (acc !! k'); [reflexivity|]. apply lookup_insert_ne. congruence.
Qed.

Lemma foldl_add_word words : ∀ acc k,
  foldl Audio.add_word acc words !! k =
    match Audio.words_of k words with
    | [] => acc !! k
    | l => Some (default [] (acc !! k) ++ (Audio.to_spoken <$> l))%list
    end.
Proof.
  induction words as [|w words IH]; intros acc k; [reflexivity|].
  cbn [foldl]. rewrite IH, add_word_lookup.
  unfold Audio.words_of. cbn [List.filter].
  destruct (match Audio.w_speaker w with Some k' => (k =? k')%Z | None => false end).
  - cbn [default fmap list_fmap].
    destruct (List.filter _ words); cbn [fmap list_fmap].
    + reflexivity.
    + unfold id. rewrite <- app_assoc. reflexivity.
  - reflexivity.
Qed.

(** X12: [extractSpeakers] groups the words by speaker: under the label of a
    speaker it stores the words that carry this label, in the order of the
    input; a label that no word carries has no entry, and words without a
    speaker are dropped. *)
Theorem extractSpeakers_groups words k :
  Audio.extractSpeakers words !! k =
    match Audio.words_of k words with
    | [] => None
    | l => Some (Audio.to_spoken <$> l)
    end.
Proof.
  unfold Audio.extractSpeakers. rewrite foldl_add_word, lookup_empty.
  destruct (Audio.words_of k words); reflexivity.
Qed.

(** ** Splitting and joining *)

Lemma split_spaces_cons s : ∃ piece pieces, Audio.split_spaces s = piece :: pieces.
Proof.
  destruct s as [|c s]; cbn; [eauto|].
  destruct (Ascii.eqb c " "); [eauto|].
  destruct (Audio.split_spaces s); eauto.
Qed.

Lemma join_cons_char sep c piece pieces :
  Audio.join sep (String c piece :: pieces) = String c (Audio.join sep (piece :: pieces)).
Proof. destruct pieces; reflexivity. Qed.

(** X13: [split(' ')] and [join(' ')] are inverse on every text, and the
    number of pieces is one more than the number of spaces: the [wordCount]
    of a note is the number of spaces of its content plus one, so that an
    empty content counts one word. *)
Theorem split_spaces_join s :
  Audio.join " " (Audio.split_spaces s) = s ∧
  length (Audio.split_spaces s) = S (Audio.count_spaces s).
Proof.
  induction s as [|c s [IHj IHl]]; [split; reflexivity|].
  cbn [Audio.split_spaces Audio.count_spaces].
  destruct (split_spaces_cons s) as (piece & pieces & Hs).
  rewrite Hs in IHj, IHl |- *.
  destruct (Ascii.eqb_spec c " ") as [->|Hne].
  - split; [|cbn; rewrite <- IHl; reflexivity].
    change (Audio.join " " ("" :: piece :: pieces))
      with (" " ++ Audio.join " " (piece :: pieces)).
    rewrite IHj. reflexivity.
  - split; [|cbn; rewrite <- IHl; reflexivity].
    rewrite join_cons_char, IHj. reflexivity.
Qed.

(** ** The transcription handler *)

(** X14: a transcription request that carries no file, or whose
    transcription call fails or reports an error, is answered with status
    500; no session is created or changed and nothing is emitted. *)
Theorem transcribe_failure r e a :
  Audio.tr_file r = None ∨ (∀ t ws, Audio.deepgram e ≠ Audio.DgResult t ws) ->
  Audio.status_code (Audio.transcribe_stream r e a).1 = 500 ∧
  Audio.activeSessions (Audio.transcribe_stream r e a).2 = Audio.activeSessions a ∧
  Audio.emitted (Audio.transcribe_stream r e a).2 = Audio.emitted a.
Proof.
  unfold Audio.transcribe_stream. cbv zeta. intros [Hf|Hd].
  - rewrite Hf. auto.
  - destruct (Audio.tr_file r); [|auto].
    destruct (Audio.deepgram e) as [msg|err|t ws]; [auto|auto|].
    destruct (Hd t ws). reflexivity.
Qed.

(** X15: a transcription that succeeds for session [id] appends its result
    to the transcripts of that session, creating the session with the
    current time as start time if there is none and keeping the start time
    otherwise; every other session is untouched and the result is emitted to
    the room of the session. *)
Theorem transcribe_success r e a buf text ws :
  Audio.tr_file r = Some buf ->
  Audio.deepgram e = Audio.DgResult text ws ->
  let id := Audio.or_default (Audio.tr_sessionId r) (Audio.uuid e) in
  let t := Audio.Transcription id text ws (Audio.extractSpeakers ws) (Audio.iso_now e) in
  (Audio.transcribe_stream r e a).1 = Audio.Response 200 (Audio.BodyTranscription id t) ∧
  Audio.activeSessions (Audio.transcribe_stream r e a).2 !! id =
    Some match Audio.activeSessions a !! id with
         | Some s => Audio.push_transcript t s
         | None => Audio.Session id (Audio.now e) [t] [] None
         end ∧
  (∀ id', id' ≠ id ->
     Audio.activeSessions (Audio.transcribe_stream r e a).2 !! id'
     = Audio.activeSessions a !! id') ∧
  Audio.emitted (Audio.transcribe_stream r e a).2
    = Audio.EmitTranscription ("session_" ++ id) t :: Audio.emitted a.
Proof.
  intros Hf Hd id t. unfold Audio.transcribe_stream. cbv zeta.
  rewrite Hf, Hd. fold id. fold t. cbn.
  split; [reflexivity|]. split; [|split; [|reflexivity]].
  - rewrite lookup_alter_eq. unfold Audio.ensure_session.
    destruct (Audio.activeSessions a !! id) as [s|] eqn:Hs.
    + rewrite Hs. reflexivity.
    + rewrite lookup_insert_eq. reflexivity.
  - intros id' Hne. rewrite lookup_alter_ne by congruence.
    unfold Audio.ensure_session.
    destruct (Audio.activeSessions a !! id); [reflexivity|].
    apply lookup_insert_ne. congruence.
Qed.

(** ** The notes handler *)

(** X16: a request for notes of a session that is not stored, or that names
    no session, is answered with status 404 and [Session not found]; the
    completion service is not called and the state is unchanged. *)
Theorem notes_unknown_session r e a :
  Audio.find_session (Audio.nr_sessionId r) a = None ->
  Audio.generate_notes r e a
  = (Audio.Response 404 (Audio.BodyError "Session not found"), a).
Proof.
  intros H. unfold Audio.generate_notes. rewrite H. reflexivity.
Qed.


Lemma join_cons2 (sep y z : string) xs :
  Audio.join sep (y :: z :: xs) = y ++ sep ++ Audio.join sep (z :: xs).
Proof. reflexivity. Qed.

Lemma join_includes (sep x : string) xs :
  x ∈ xs -> Str.includes x (Audio.join sep xs) = true.
Proof.
  induction xs as [|y xs IH]; intros Hin.
  - apply elem_of_nil in Hin. destruct Hin.
  - apply elem_of_cons in Hin as [->|Hin].
    + destruct xs as [|z xs].
      * apply includes_refl.
      * rewrite join_cons2. apply includes_prefix.
    + destruct xs as [|z xs]; [apply elem_of_nil in Hin; destruct Hin|].
      rewrite join_cons2.
      apply (includes_trans _ (Audio.join sep (z :: xs))); [apply IH, Hin|].
      rewrite <- string_app_assoc. apply includes_suffix.
Qed.

(** X18: the prompt sent to the completion service for a stored session
    contains the note type and, for every transcription of the session, its
    time stamp and its text. *)
Theorem notes_prompt_contains r e a id sess t :
  Audio.nr_sessionId r = Some id ->
  Audio.activeSessions a !! id = Some sess ->
  t ∈ Audio.ses_transcripts sess ->
  ∃ prompt,
    Audio.requests (Audio.generate_notes r e a).2 = Audio.Complete prompt :: Audio.requests a ∧
    Str.includes (Audio.t_transcript t) prompt = true ∧
    Str.includes (Audio.t_timestamp t) prompt = true ∧
    Str.includes (default "SOAP" (Audio.nr_noteType r)) prompt = true.
Proof.
  intros Hid Hs Ht. unfold Audio.generate_notes, Audio.find_session.
  rewrite Hid, Hs. cbv zeta.
  eexists. split; [destruct (Audio.openai e); reflexivity|].
  assert (Hfull : Str.includes (Audio.transcript_line t)
                    (Audio.createClinicalNotePrompt (default "SOAP" (Audio.nr_noteType r))
                       (Audio.fullTranscript sess)
                       (default (Audio.ClientInfo None None None) (Audio.nr_clientInfo r))
                       (Audio.locale_date e)) = true).
  { apply (includes_trans _ (Audio.fullTranscript sess)).
    - apply join_includes. apply list_elem_of_fmap. eauto.
    - unfold Audio.createClinicalNotePrompt.
      repeat (rewrite <- (string_app_assoc _ _ (Audio.fullTranscript sess ++ _))).
      apply includes_app. }
  split; [|split].
  - apply (includes_trans _ (Audio.transcript_line t)); [|exact Hfull].
    unfold Audio.transcript_line.
    rewrite <- !string_app_assoc. apply includes_suffix.
  - apply (includes_trans _ (Audio.transcript_line t)); [|exact Hfull].
    unfold Audio.transcript_line. apply includes_app.
  - unfold Audio.createClinicalNotePrompt.
    rewrite <- (string_app_assoc Audio.nl "Generate a professional ").
    apply includes_app.
Qed.

(** ** What the service keeps *)

Lemma handle_sessions i e a :
  Audio.activeSessions (Audio.handle i e a) = Audio.activeSessions a ∨
  (∃ id t,
     Audio.activeSessions (Audio.handle i e a)
     = alter (Audio.push_transcript t) id
         (Audio.ensure_session id (Audio.now e) (Audio.activeSessions a))) ∨
  (∃ id n,
     Audio.n_sessionId n = id ∧
     Audio.activeSessions (Audio.handle i e a)
     = alter (Audio.set_note n) id (Audio.activeSessions a)).
Proof.
  destruct i as [r|r|socket id|]; cbn [Audio.handle].
  - unfold Audio.transcribe_stream. cbv zeta.
    destruct (Audio.tr_file r); [|auto].
    destruct (Audio.deepgram e); [auto|auto|]. right. left. eauto.
  - unfold Audio.generate_notes, Audio.find_session.
    destruct (Audio.nr_sessionId r) as [id|]; [|auto].
    destruct (Audio.activeSessions a !! id); [|auto]. cbv zeta.
    destruct (Audio.openai e); [auto|]. right. right. eexists _, _.
    split; [|reflexivity]. reflexivity.
  - left. unfold Audio.join_session. cbv zeta. cbn.
    destruct (Audio.activeSessions a !! id); reflexivity.
  - auto.
Qed.

(** X19: no request removes a session, resets its start time or drops a
    transcript: a session that is stored stays stored under its identifier
    with the same start time, and its earlier transcripts are an initial
    part of its later ones. *)
Theorem sessions_only_grow i e a id sess :
  Audio.activeSessions a !! id = Some sess ->
  (∃ sess',
     Audio.activeSessions (Audio.handle i e a) !! id = Some sess' ∧
     Audio.ses_id sess' = Audio.ses_id sess ∧
     Audio.ses_startTime sess' = Audio.ses_startTime sess ∧
     Audio.ses_transcripts sess `prefix_of` Audio.ses_transcripts sess') ∧
  Audio.health a <= Audio.health (Audio.handle i e a).
Proof.
  intros Hs. unfold Audio.health.
  destruct (handle_sessions i e a) as [->|[(id' & t & ->)|(id' & n & _ & ->)]].
  - split; [exists sess; auto|lia].
  - assert (He : Audio.ensure_session id' (Audio.now e) (Audio.activeSessions a) !! id
                 = Some sess).
    { unfold Audio.ensure_session.
      destruct (Audio.activeSessions a !! id') eqn:Hid; [exact Hs|].
      rewrite lookup_insert_ne; [exact Hs|congruence]. }
    split.
    + destruct (decide (id' = id)) as [->|Hne].
      * exists (Audio.push_transcript t sess).
        rewrite lookup_alter_eq, He. cbn.
        split; [reflexivity|]. split; [reflexivity|]. split; [reflexivity|].
        apply prefix_app_r. reflexivity.
      * exists sess. rewrite lookup_alter_ne by exact Hne. auto.
    + rewrite <- !(size_dom (D := gset string)), dom_alter_L.
      apply subseteq_size. unfold Audio.ensure_session.
      destruct (Audio.activeSessions a !! id'); [reflexivity|].
      rewrite dom_insert_L. apply union_subseteq_r.
  - split.
    + destruct (decide (id' = id)) as [->|Hne].
      * exists (Audio.set_note n sess). rewrite lookup_alter_eq, Hs. cbn. auto.
      * exists sess. rewrite lookup_alter_ne by exact Hne. auto.
    + rewrite <- !(size_dom (D := gset string)), dom_alter_L. lia.
Qed.

Lemma handle_well_formed i e a :
  Audio.well_formed a -> Audio.well_formed (Audio.handle i e a).
Proof.
  intros Ha. unfold Audio.well_formed.
  destruct (handle_sessions i e a) as [->|[(id' & t & ->)|(id' & n & Hn & ->)]].
  - exact Ha.
  - intros id sess Hs. destruct (decide (id' = id)) as [->|Hne].
    + rewrite lookup_alter_eq in Hs. unfold Audio.ensure_session in Hs.
      destruct (Audio.activeSessions a !! id) as [s0|] eqn:H0.
      * rewrite H0 in Hs. injection Hs as <-. exact (Ha id s0 H0).
      * rewrite lookup_insert_eq in Hs. injection Hs as <-. cbn.
        split; [reflexivity|]. split; [reflexivity|]. discriminate.
    + rewrite lookup_alter_ne in Hs by exact Hne. unfold Audio.ensure_session in Hs.
      destruct (Audio.activeSessions a !! id'); [exact (Ha id sess Hs)|].
      rewrite lookup_insert_ne in Hs by exact Hne. exact (Ha id sess Hs).
  - intros id sess Hs. destruct (decide (id' = id)) as [->|Hne].
    + rewrite lookup_alter_eq in Hs.
      destruct (Audio.activeSessions a !! id) as [s0|] eqn:H0; [|discriminate].
      injection Hs as <-. destruct (Ha id s0 H0) as (Hid & Hsp & _). cbn.
      split; [exact Hid|]. split; [exact Hsp|]. intros n' [= <-]. exact Hn.
    + rewrite lookup_alter_ne in Hs by exact Hne. exact (Ha id sess Hs).
Qed.

Lemma handle_emitted i e a :
  Audio.well_formed a ->
  Forall Audio.without_speakers (Audio.emitted a) ->
  Forall Audio.without_speakers (Audio.emitted (Audio.handle i e a)).
Proof.
  intros Ha He. destruct i as [r|r|socket id|]; cbn [Audio.handle].
  - unfold Audio.transcribe_stream. cbv zeta.
    destruct (Audio.tr_file r); [|exact He].
    destruct (Audio.deepgram e); [exact He|exact He|].
    constructor; [exact I|exact He].
  - unfold Audio.generate_notes.
    destruct (Audio.find_session _ a); [|exact He]. cbv zeta.
    destruct (Audio.openai e); exact He.
  - unfold Audio.join_session. cbv zeta. cbn.
    destruct (Audio.activeSessions a !! id) as [sess|] eqn:Hs; [|exact He].
    constructor; [|exact He]. exact (proj1 (proj2 (Ha id sess Hs))).
  - exact He.
Qed.

(** X20: in every state the audio service can reach, a stored session
    carries the identifier it is stored under, its set of speakers is empty,
    since nothing ever adds to it, and its note, if any, names the session;
    hence every [session_data] event sent to a client lists no speakers. *)
Theorem reachable_well_formed a :
  Audio.reachable a ->
  Audio.well_formed a ∧ Forall Audio.without_speakers (Audio.emitted a).
Proof.
  induction 1 as [|a i e _ [IHw IHe]].
  - split; [|constructor]. intros id sess Hs. cbn in Hs.
    rewrite lookup_empty in Hs. discriminate.
  - split; [apply handle_well_formed, IHw|apply handle_emitted; assumption].
Qed.

End AudioFacts.

(** ** The audio service on sample inputs *)

Lemma transcribe_failure_witness :
  Audio.status_code
    (Audio.transcribe_stream (Audio.TranscribeRequest (Some "s1") None)
       audio_refused (Audio.new_service (number := Z))).1 = 500.
Proof.
  destruct (transcribe_failure (Audio.TranscribeRequest (Some "s1") None)
              audio_refused (Audio.new_service (number := Z))) as (H & _);
    [left; reflexivity|exact H].
Defined.

Lemma transcribe_success_witness :
  Audio.activeSessions
    (Audio.transcribe_stream (Audio.TranscribeRequest (Some "s1") (Some "RIFF"))
       audio_heard Audio.new_service).2 !! "s1"
  = Some (Audio.Session "s1" 1000 [first_transcription] [] None).
Proof.
  destruct (transcribe_success (Audio.TranscribeRequest (Some "s1") (Some "RIFF"))
              audio_heard Audio.new_service "RIFF" "hello there" sample_words)
    as (_ & H & _); [reflexivity | reflexivity |].
  exact H.
Defined.

Lemma notes_unknown_session_witness :
  Audio.generate_notes (Audio.NotesRequest (Some "nobody") None None)
    audio_heard (Audio.new_service (number := Z))
  = (Audio.Response 404 (Audio.BodyError "Session not found"), Audio.new_service).
Proof. apply notes_unknown_session. reflexivity. Defined.


Lemma notes_prompt_contains_witness :
  ∃ prompt,
    Audio.requests (Audio.generate_notes (Audio.NotesRequest (Some "s1") None None)
                      audio_heard one_session).2 = [Audio.Complete prompt; Audio.Transcribe "RIFF"] ∧
    Str.includes "hello there" prompt = true.
Proof.
  destruct (notes_prompt_contains (Audio.NotesRequest (Some "s1") None None) audio_heard
              one_session "s1" (Audio.Session "s1" 1000 [first_transcription] [] None)
              first_transcription)
    as (prompt & H1 & H2 & _);
    [reflexivity | vm_compute; reflexivity | apply list_elem_of_here |].
  exists prompt. split; [exact H1|exact H2].
Defined.

Lemma sessions_only_grow_witness :
  ∃ sess',
    Audio.activeSessions
      (Audio.handle (Audio.TranscribeStream (Audio.TranscribeRequest (Some "s1") (Some "RIFF")))
         audio_heard one_session) !! "s1" = Some sess' ∧
    Audio.ses_startTime sess' = 1000%Z.
Proof.
  destruct (sessions_only_grow
              (Audio.TranscribeStream (Audio.TranscribeRequest (Some "s1") (Some "RIFF")))
              audio_heard one_session "s1"
              (Audio.Session "s1" 1000 [first_transcription] [] None))
    as ((sess' & H1 & _ & H2 & _) & _); [vm_compute; reflexivity|].
  exists sess'. split; [exact H1|exact H2].
Defined.

Lemma reachable_well_formed_witness :
  Audio.well_formed one_session.
Proof.
  apply reachable_well_formed.
  apply (Audio.reachable_handle Audio.new_service
           (Audio.TranscribeStream (Audio.TranscribeRequest (Some "s1") (Some "RIFF")))
           audio_heard).
  apply Audio.reachable_new.
Defined.
